(** * Material-assignment capture and reconciliation of shadeset

    A shallow embedding of [shadeset/materials.py] (capture, path lookup,
    shadingEngine lookup, the depth-based reconciliation of
    [apply_material_assignments] and the earlier
    [apply_material_assignments_v0], [get_members], [assign_uuid] and
    [collect_material_assignments]), of [filter_bad_face_assignments], the
    name helpers [strip_namespace], [shorten_name], [find_members] and the
    attribute helpers [add_attr_kwargs] and [set_attr_data] from
    [shadeset/utils.py], and of [apply_material_assignments],
    [get_type_flag] and [set_attr] of [shadeset_lite.py].

    Python strings are [string]; Python dicts, which keep insertion order,
    are association lists; the Maya command layer ([maya.cmds]) is a record
    of query functions supplied by the caller. *)

From Stdlib Require Import String Ascii List Bool Arith Lia ZArith.
From Stdlib Require PrimFloat.
Import ListNotations.
Open Scope list_scope.
Open Scope string_scope.

(* ------------------------------------------------------------------ *)
(** ** Python string methods *)

Module Py.

(** Python truthiness of an optional string: [None] and [""] are false. *)
Definition truthy (s : option string) : bool :=
  match s with
  | None => false
  | Some v => negb (String.eqb v "")
  end.

(** [c in s] for a one-character [c]. *)
Fixpoint has_char (c : ascii) (s : string) : bool :=
  match s with
  | EmptyString => false
  | String a s' => Ascii.eqb a c || has_char c s'
  end.

(** [s.count(c)] for a one-character [c]. *)
Fixpoint count_char (c : ascii) (s : string) : nat :=
  match s with
  | EmptyString => 0
  | String a s' => (if Ascii.eqb a c then 1 else 0) + count_char c s'
  end.

(** [s.startswith(p)]. *)
Definition startswith (s p : string) : bool := String.prefix p s.

(** [s.lstrip(c)] for a one-character [c]. *)
Fixpoint lstrip (c : ascii) (s : string) : string :=
  match s with
  | EmptyString => EmptyString
  | String a s' => if Ascii.eqb a c then lstrip c s' else s
  end.

(** [s.rstrip(c)] for a one-character [c]. *)
Fixpoint rstrip (c : ascii) (s : string) : string :=
  match s with
  | EmptyString => EmptyString
  | String a s' =>
      let r := rstrip c s' in
      if String.eqb r "" && Ascii.eqb a c then "" else String a r
  end.

(** [s.split(c)] for a one-character [c]: never empty. *)
Fixpoint split (c : ascii) (s : string) : list string :=
  match s with
  | EmptyString => [""]
  | String a s' =>
      match split c s' with
      | [] => [] (* unreachable *)
      | w :: ws => if Ascii.eqb a c then "" :: w :: ws else String a w :: ws
      end
  end.

(** [s.rpartition(c)[-1]]: the text after the last [c], or all of [s]. *)
Definition rpartition_last (c : ascii) (s : string) : string :=
  last (split c s) "".

(** [s.partition(c)[-1]]: the text after the first [c], or [""]. *)
Fixpoint partition_last (c : ascii) (s : string) : string :=
  match s with
  | EmptyString => EmptyString
  | String a s' => if Ascii.eqb a c then s' else partition_last c s'
  end.

(** [s.replace(old, new, 1)]. *)
Fixpoint replace1 (old new s : string) : string :=
  if String.prefix old s then new ++ substring (String.length old)
                                        (String.length s) s
  else match s with
       | EmptyString => EmptyString
       | String a s' => String a (replace1 old new s')
       end.

(** The scan of [s.replace(old, new)] for a non-empty [old]: [skip] counts
    the characters of the last replaced occurrence still to be dropped. *)
Fixpoint replace_scan (old new : string) (skip : nat) (s : string) : string :=
  match s with
  | EmptyString => EmptyString
  | String a s' =>
      match skip with
      | S k => replace_scan old new k s'
      | O => if String.prefix old s
             then new ++ replace_scan old new (String.length old - 1) s'
             else String a (replace_scan old new 0 s')
      end
  end.

(** [s.replace("", new)] puts [new] around every character. *)
Fixpoint replace_empty (new s : string) : string :=
  match s with
  | EmptyString => new
  | String a s' => new ++ String a (replace_empty new s')
  end.

(** [s.replace(old, new)]. *)
Definition replace (s old new : string) : string :=
  if String.eqb old "" then replace_empty new s else replace_scan old new 0 s.

End Py.

(* ------------------------------------------------------------------ *)
(** ** Dicts in insertion order *)

Module Dict.

(** [d.get(k)]. *)
Fixpoint get {V} (k : string) (d : list (string * V)) : option V :=
  match d with
  | [] => None
  | (k', v) :: d' => if String.eqb k k' then Some v else get k d'
  end.

(** [d[k].append(v)] on a [defaultdict(list)]: a new key goes last. *)
Fixpoint append {V} (k : string) (v : V) (d : list (string * list V))
  : list (string * list V) :=
  match d with
  | [] => [(k, [v])]
  | (k', vs) :: d' =>
      if String.eqb k k' then (k', (vs ++ [v])%list) :: d' else (k', vs) :: append k v d'
  end.

(** [d.setdefault(k, [])]. *)
Fixpoint setdefault {V} (k : string) (d : list (string * list V))
  : list (string * list V) :=
  match d with
  | [] => [(k, [])]
  | (k', vs) :: d' => if String.eqb k k' then d else (k', vs) :: setdefault k d'
  end.

(** [d[k] = v]: an existing key keeps its place, a new one goes last. *)
Fixpoint set {V} (k : string) (v : V) (d : list (string * V)) : list (string * V) :=
  match d with
  | [] => [(k, v)]
  | (k', v') :: d' => if String.eqb k k' then (k', v) :: d' else (k', v') :: set k v d'
  end.

(** [d[k]] of a [defaultdict(list)], the empty list for a missing key. *)
Definition get_list {V} (k : string) (d : list (string * list V)) : list V :=
  match get k d with Some vs => vs | None => [] end.

End Dict.

(* ------------------------------------------------------------------ *)
(** ** Data model *)

(** A shadingEngine member as stored in an assignments dict:
    [{'path': str, 'components': [str...]}]. *)
Record member := mkMember { m_path : string; m_components : list string }.

(** The value of an assignments dict entry:
    [{'meta_uuid': str, 'members': [member...]}]. *)
Record group_data := mkGroupData {
  meta_uuid : option string;
  members : list member
}.

(** The part of [maya.cmds] the code queries. *)
Record maya := mkMaya {
  (** [cmds.ls(pattern, long=True, recursive=True)] *)
  ls_long : string -> list string;
  (** [cmds.ls(name, recursive=True)] *)
  ls_names : string -> list string;
  (** [cmds.ls(attr_pattern, objectsOnly=True, recursive=True)] *)
  ls_objects : string -> list string;
  (** [cmds.getAttr(attr)] when [cmds.objExists(attr)], else [None] *)
  get_attr : string -> option string
}.

(* ------------------------------------------------------------------ *)
(** ** Lookups (materials.py) *)

Definition get_uuid (M : maya) (path : string) : option string :=
  get_attr M (path ++ ".meta_uuid").

(** [(name_lookup, uuid_lookup)] of [find_shading_engine]. *)
Definition lookups (shading_engine : string) (namespace : option string)
  : string * string :=
  match namespace with
  | Some ns => if Py.truthy namespace
               then (ns ++ shading_engine, ns ++ "*.meta_uuid")
               else (shading_engine, "*.meta_uuid")
  | None => (shading_engine, "*.meta_uuid")
  end.

(** [uuid_matches]: the nodes of [uuid_lookup] whose [meta_uuid] equals
    [uuid]; empty when [uuid] is falsy. *)
Definition uuid_matches (M : maya) (uuid_lookup : string) (uuid : option string)
  : list string :=
  if Py.truthy uuid
  then filter (fun path => match get_uuid M path, uuid with
                           | Some u, Some v => String.eqb u v
                           | None, None => true
                           | _, _ => false
                           end)
              (ls_objects M uuid_lookup)
  else [].

Definition find_shading_engine (M : maya) (shading_engine : string)
    (uuid namespace : option string) : option string :=
  let '(name_lookup, uuid_lookup) := lookups shading_engine namespace in
  let name_matches := ls_names M name_lookup in
  if Nat.eqb (length name_matches) 1 then hd_error name_matches else
  let uuid_matches := uuid_matches M uuid_lookup uuid in
  if Py.truthy uuid && Nat.eqb (length uuid_matches) 1
  then hd_error uuid_matches else
  match name_matches with
  | n :: _ => Some n
  | [] => hd_error uuid_matches
  end.

(** The filter of the loop of [find_matching_paths]: the two [continue]s. *)
Definition keep_match (root : string) (namespace : option string)
    (m : string) : bool :=
  negb (Py.truthy namespace &&
        negb (Py.startswith (Py.rpartition_last "|" m)
                            (match namespace with Some n => n | None => "" end)))
  && Py.startswith m (Py.rstrip "|" root ++ "|").

Definition match_pattern (path : string) (strict : bool) : string :=
  let path := Py.lstrip "|" path in
  if strict then "*|" ++ path else "*|" ++ Py.partition_last "|" path.

Definition find_matching_paths (M : maya) (path root : string)
    (namespace : option string) (strict : bool) : list string :=
  filter (keep_match root namespace) (ls_long M (match_pattern path strict)).

(* ------------------------------------------------------------------ *)
(** ** Reconciliation: [apply_material_assignments] (materials.py) *)

(** An entry of [matched_member_assignments[path]]:
    [{'member': member, 'shadingEngine': shading_engine}]. *)
Record candidate := mkCandidate { c_member : member; c_engine : string }.

(** Innermost loop: [matched_member_assignments[match].append(...)] for
    every live path [match] found for [member]. *)
Definition add_matches (shading_engine : string) (member : member)
    (matches : list string) (matched : list (string * list candidate))
  : list (string * list candidate) :=
  fold_left (fun matched match_ =>
               Dict.append match_ (mkCandidate member shading_engine) matched)
            matches matched.

(** The body of [for member in data['members']]; [if not matches: continue]
    leaves the index as it is, as the empty innermost loop does. *)
Definition add_member (M : maya) (root : string) (member_namespace : option string)
    (strict : bool) (shading_engine : string)
    (matched : list (string * list candidate)) (member : member)
  : list (string * list candidate) :=
  let matches := find_matching_paths M (m_path member) root member_namespace strict in
  add_matches shading_engine member matches matched.

(** The body of [for shading_engine, data in assignments.items()]. *)
Definition add_engine (M : maya) (root : string)
    (member_namespace material_namespace : option string) (strict : bool)
    (matched : list (string * list candidate)) (entry : string * group_data)
  : list (string * list candidate) :=
  let '(shading_engine, data) := entry in
  let matching_shading_engine :=
    find_shading_engine M (Py.rpartition_last ":" shading_engine)
      (meta_uuid data) material_namespace in
  if String.eqb shading_engine "" then matched (* [if not shading_engine] *)
  else fold_left (add_member M root member_namespace strict shading_engine)
                 (members data) matched.

(** First loop: the index [matched_member_assignments] from live path to
    candidates, in the order the dicts are enumerated. *)
Definition matched_member_assignments (M : maya) (assignments : list (string * group_data))
    (root : string) (member_namespace material_namespace : option string)
    (strict : bool) : list (string * list candidate) :=
  fold_left (add_engine M root member_namespace material_namespace strict)
            assignments [].

(** The key of [max]: [x['member']['path'].count('|')]. *)
Definition depth (c : candidate) : nat := Py.count_char "|" (m_path (c_member c)).

(** Python's [max(xs, key=key)]: the first element of greatest key; [max]
    of an empty list raises, here [None]. *)
Definition py_max {A} (key : A -> nat) (xs : list A) : option A :=
  match xs with
  | [] => None
  | x :: xs' => Some (fold_left (fun b y => if Nat.ltb (key b) (key y) then y else b) xs' x)
  end.

(** The candidates one live path keeps: [best_assignment] and every
    candidate with its member path. *)
Definition best_candidates (cands : list candidate) : list candidate :=
  match py_max depth cands with
  | None => []
  | Some best_assignment =>
      filter (fun c => String.eqb (m_path (c_member c))
                                  (m_path (c_member best_assignment))) cands
  end.

(** The body of [for assignment in assignments] of the second loop. *)
Definition keep_best (path best_path : string) (best : list (string * list member))
    (c : candidate) : list (string * list member) :=
  if String.eqb (m_path (c_member c)) best_path
  then Dict.append (c_engine c) (mkMember path (m_components (c_member c))) best
  else best.

(** The body of [for path, assignments in matched_member_assignments.items()]. *)
Definition best_step (best : list (string * list member))
    (entry : string * list candidate) : list (string * list member) :=
  let '(path, cands) := entry in
  match py_max depth cands with
  | None => best (* a defaultdict entry is never empty *)
  | Some best_assignment =>
      let best_path := m_path (c_member best_assignment) in
      fold_left (keep_best path best_path) cands best
  end.

(** Second loop: [best_shading_assignments], shadingEngine to members. *)
Definition best_shading_assignments (matched : list (string * list candidate))
  : list (string * list member) :=
  fold_left best_step matched [].

(** The list handed to [assign_shading_engine] for one shadingEngine. *)
Definition assignees (ms : list member) : list string :=
  flat_map (fun m => match m_components m with
                     | [] => [m_path m]
                     | comps => map (fun comp => m_path m ++ "." ++ comp) comps
                     end) ms.

(** The calls [assign_shading_engine(shading_engine, assignees)], in order. *)
Definition apply_material_assignments (M : maya)
    (assignments : list (string * group_data)) (root : string)
    (member_namespace material_namespace : option string) (strict : bool)
  : list (string * list string) :=
  map (fun '(shading_engine, ms) => (shading_engine, assignees ms))
      (best_shading_assignments
         (matched_member_assignments M assignments root member_namespace
            material_namespace strict)).

(* ------------------------------------------------------------------ *)
(** ** Capture (materials.py) *)

(** [a, b = s.split(c)]: raises unless there are exactly two parts. *)
Definition unpack2 (c : ascii) (s : string) : option (string * string) :=
  match Py.split c s with
  | [a; b] => Some (a, b)
  | _ => None
  end.

(** Turns a list of results into the result of the list: the first
    exception aborts the loop. *)
Fixpoint all_ok {A} (xs : list (option A)) : option (list A) :=
  match xs with
  | [] => Some []
  | Some x :: xs' => option_map (cons x) (all_ok xs')
  | None :: _ => None
  end.

Definition filter_members_in_hierarchy (ms hierarchy : list string) : list string :=
  filter (fun m => existsb (String.eqb (hd "" (Py.split "." m))) hierarchy) ms.

(** The body of the loop of [get_relative_paths]; [anchor] is unbound
    (an [UnboundLocalError], here [None]) when [root] has no ['|']. *)
Definition relative_path (anchor : option string) (root path : string)
  : option string :=
  if Py.startswith path root then
    match anchor with
    | Some a => Some (a ++ "|" ++ Py.lstrip "|" (Py.replace1 root "" path))
    | None => None
    end
  else Some path.

Definition get_relative_paths (paths : list string) (root : string)
  : option (list string) :=
  let anchor :=
    if Py.has_char "|" root
    then Some (Py.rpartition_last "|" (Py.rstrip "|" root)) else None in
  all_ok (map (relative_path anchor root) paths).

Definition is_word_char (a : ascii) : bool :=
  let n := nat_of_ascii a in
  (Nat.leb 65 n && Nat.leb n 90) || (Nat.leb 97 n && Nat.leb n 122)
  || (Nat.leb 48 n && Nat.leb n 57) || Nat.eqb n 95.

(** [re.sub(r'[A-Za-z0-9_]+\:', '', s)]: [acc] is the run of word
    characters read since the last non-word character. *)
Fixpoint sub_namespaces (acc s : string) : string :=
  match s with
  | EmptyString => acc
  | String a s' =>
      if is_word_char a then sub_namespaces (acc ++ String a "") s'
      else if Ascii.eqb a ":" && negb (String.eqb acc "")
      then sub_namespaces "" s'
      else acc ++ String a (sub_namespaces "" s')
  end.

Definition remove_namespace (name : string) : option string :=
  let parts := if Py.has_char "." name then unpack2 "." name
               else Some (name, "") in
  match parts with
  | None => None
  | Some (obj, comp) =>
      let obj := sub_namespaces "" obj in
      Some (if String.eqb comp "" then obj else obj ++ "." ++ comp)
  end.

Definition remove_namespaces (names : list string) : option (list string) :=
  all_ok (map remove_namespace names).

(** One iteration of the loop of [format_members] on [components_map]. *)
Definition format_step (acc : option (list (string * list string)))
    (m : string) : option (list (string * list string)) :=
  match acc with
  | None => None
  | Some components_map =>
      if Py.has_char "." m then
        match unpack2 "." m with
        | Some (obj, comp) =>
            Some (Dict.append obj comp (Dict.setdefault obj components_map))
        | None => None
        end
      else Some (Dict.setdefault m components_map)
  end.

Definition format_members (ms : list string) : option (list member) :=
  option_map (map (fun '(k, v) => mkMember k v)) (fold_left format_step ms (Some [])).

(** The members sanitised for one shadingEngine in the loop of
    [collect_material_assignments], from the raw [get_members] list. *)
Definition collect_members (hierarchy : list string) (root : string)
    (raw : list string) : option (list member) :=
  let ms := filter_members_in_hierarchy raw hierarchy in
  match get_relative_paths ms root with
  | None => None
  | Some ms =>
      match remove_namespaces ms with
      | None => None
      | Some ms => format_members ms
      end
  end.

(* ------------------------------------------------------------------ *)
(** ** [filter_bad_face_assignments] (utils.py) *)

Definition is_digit (a : ascii) : bool :=
  Nat.leb 48 (nat_of_ascii a) && Nat.leb (nat_of_ascii a) 57.

Fixpoint span_digits (l : list ascii) : list ascii * list ascii :=
  match l with
  | a :: l' => if is_digit a then let (ds, r) := span_digits l' in (a :: ds, r)
               else ([], l)
  | [] => ([], [])
  end.

(** [r'\.f\[0:(\d+)\]$'] matched against a reversed text ending at the
    anchor: [(group(0), group(1))]. *)
Definition face_range_at_end (r : list ascii) : option (string * string) :=
  match r with
  | "]"%char :: r' =>
      let (ds, rest) := span_digits r' in
      match ds, rest with
      | _ :: _, ":"%char :: "0"%char :: "["%char :: "f"%char :: "."%char :: _ =>
          let d := string_of_list_ascii (rev ds) in
          Some (".f[0:" ++ d ++ "]", d)
      | _, _ => None
      end
  | _ => None
  end.

(** [pattern.search(node)]; [$] also matches before a final newline. *)
Definition face_range_search (node : string) : option (string * string) :=
  let r := rev (list_ascii_of_string node) in
  match face_range_at_end r with
  | Some m => Some m
  | None => match r with
            | "010"%char :: r' => face_range_at_end r'
            | _ => None
            end
  end.

(** [int(s)] of a string of decimal digits. *)
Definition py_int (s : string) : Z :=
  fold_left (fun acc a => acc * 10 + Z.of_nat (nat_of_ascii a - 48))%Z
            (list_ascii_of_string s) 0%Z.

(** [num_faces] is [cmds.polyEvaluate(_, face=True)]. *)
Definition filter_bad_face_assignments (num_faces : string -> Z)
    (nodes : list string) : list string :=
  map (fun node =>
         match face_range_search node with
         | Some (m, d) =>
             let short_name := Py.replace node m "" in
             if Z.eqb (py_int d + 1) (num_faces short_name) then short_name
             else node
         | None => node
         end) nodes.

(* ------------------------------------------------------------------ *)
(** ** [apply_material_assignments] of shadeset_lite.py *)

(** [find_matching_paths] of shadeset_lite.py: the root filter is
    [match.startswith(root)]. *)
Definition find_matching_paths_lite (M : maya) (path root : string)
    (namespace : option string) (strict : bool) : list string :=
  filter (fun m =>
            negb (Py.truthy namespace &&
                  negb (Py.startswith (Py.rpartition_last "|" m)
                          (match namespace with Some n => n | None => "" end)))
            && Py.startswith m root)
         (ls_long M (match_pattern path strict)).

(** The calls [assign_shading_engine(matching_shading_engine, assignees)];
    [find_shading_engine] of shadeset_lite.py is the one of materials.py. *)
Definition apply_material_assignments_lite (M : maya)
    (assignments : list (string * group_data)) (root : string)
    (member_namespace material_namespace : option string) (strict : bool)
  : list (option string * list string) :=
  flat_map
    (fun '(shading_engine, data) =>
       let matching_shading_engine :=
         find_shading_engine M (Py.rpartition_last ":" shading_engine)
           (meta_uuid data) material_namespace in
       if String.eqb shading_engine "" then []
       else
         flat_map
           (fun member =>
              let matches :=
                find_matching_paths_lite M (m_path member) root member_namespace strict in
              match matches with
              | [] => []
              | _ =>
                  let assignees :=
                    match m_components member with
                    | [] => matches
                    | comps => flat_map (fun match_ =>
                                 map (fun comp => match_ ++ "." ++ comp) comps) matches
                    end in
                  [(matching_shading_engine, assignees)]
              end)
           (members data))
    assignments.

(* ------------------------------------------------------------------ *)
(** ** A concrete Maya scene *)

(** A scene: long DAG paths, and shadingEngines with their [meta_uuid]. *)
Record scene := mkScene {
  dag : list string;
  engines : list (string * option string)
}.

(** One pattern segment against one name; [recursive=True] also matches
    the name in any namespace. *)
Definition seg_match (pat seg : string) : bool :=
  (String.eqb pat "*" && negb (String.eqb seg ""))
  || String.eqb pat seg || String.eqb pat (Py.rpartition_last ":" seg).

(** A relative DAG pattern names the trailing segments of a path. *)
Fixpoint trailing_match (pats segs : list string) : bool :=
  match pats, segs with
  | [], _ => true
  | p :: ps, s :: ss => seg_match p s && trailing_match ps ss
  | _ :: _, [] => false
  end.

Definition scene_maya (S : scene) : maya := {|
  ls_long := fun pattern =>
    filter (fun p => trailing_match (rev (Py.split "|" pattern))
                                    (rev (Py.split "|" p))) (dag S);
  ls_names := fun name =>
    filter (fun n => String.eqb n name
                     || String.eqb (Py.rpartition_last ":" n) name)
           (map fst (engines S));
  ls_objects := fun pattern =>
    let prefix := hd "" (Py.split "*" pattern) in
    map fst (filter (fun '(n, u) => match u with
                                    | Some _ => Py.startswith n prefix
                                    | None => false
                                    end) (engines S));
  get_attr := fun attr =>
    match find (fun '(n, u) => String.eqb attr (n ++ ".meta_uuid")) (engines S) with
    | Some (_, u) => u
    | None => None
    end
|}.

(* ------------------------------------------------------------------ *)
(** ** [apply_material_assignments_v0] (materials.py) *)

(** The calls [assign_shading_engine(matching_shading_engine, assignees)]
    of [apply_material_assignments_v0]: one per member with matches. *)
Definition apply_material_assignments_v0 (M : maya)
    (assignments : list (string * group_data)) (root : string)
    (member_namespace material_namespace : option string) (strict : bool)
  : list (option string * list string) :=
  flat_map
    (fun '(shading_engine, data) =>
       let matching_shading_engine :=
         find_shading_engine M (Py.rpartition_last ":" shading_engine)
           (meta_uuid data) material_namespace in
       if String.eqb shading_engine "" then []
       else
         flat_map
           (fun member =>
              let matches :=
                find_matching_paths M (m_path member) root member_namespace strict in
              match matches with
              | [] => []
              | _ =>
                  let assignees :=
                    match m_components member with
                    | [] => matches
                    | comps => flat_map (fun match_ =>
                                 map (fun comp => match_ ++ "." ++ comp) comps) matches
                    end in
                  [(matching_shading_engine, assignees)]
              end)
           (members data))
    assignments.

(* ------------------------------------------------------------------ *)
(** ** [get_members], [assign_uuid], [collect_material_assignments] (materials.py) *)

(** The body of the loop of [get_members]: a face member [obj.comp] is
    expanded to the first leaf shape of [obj]. [leaf obj] is
    [cmds.ls(obj, long=True, dag=True, leaf=True, noIntermediate=True)];
    its [[0]] raises when it is empty. *)
Definition get_member (leaf : string -> list string) (member : string) : option string :=
  if Py.has_char "." member then
    match unpack2 "." member with
    | Some (obj, comp) =>
        match leaf obj with
        | obj :: _ => Some (obj ++ "." ++ comp)
        | [] => None
        end
    | None => None
    end
  else Some member.

(** [get_members(shading_engine)]; [members] is
    [cmds.ls(cmds.sets(shading_engine, query=True), long=True)]. *)
Definition get_members (leaf : string -> list string) (members : list string)
  : option (list string) :=
  all_ok (map (get_member leaf) members).

(** The string attributes [node.meta_uuid] of the scene and the number of
    [uuid.uuid4()] calls made so far; [gen n] is the value of the [n]-th.
    An attribute that exists has a value [Some v], or [None] when it was
    never set (its [cmds.getAttr] is [None]). *)
Definition uuid_state := (list (string * option string) * nat)%type.

(** [cmds.getAttr(attr)] on the store: [None] also for an attribute that
    does not exist; the source only reads attributes it checked exist. *)
Definition get_attr_value (attr : string) (store : list (string * option string))
    : option string :=
  match Dict.get attr store with
  | Some v => v
  | None => None
  end.

(** [assign_uuid(path, force)]: the result is the [cmds.getAttr(attr)]
    read after the writes. *)
Definition assign_uuid (gen : nat -> string) (st : uuid_state) (path : string)
    (force : bool) : option string * uuid_state :=
  let '(store, n) := st in
  let attr := path ++ ".meta_uuid" in
  match Dict.get attr store with
  | None =>
      let store := Dict.set attr (Some (gen n)) store in
      (get_attr_value attr store, (store, S n))
  | Some _ =>
      if force then
        let store := Dict.set attr (Some (gen n)) store in
        (get_attr_value attr store, (store, S n))
      else (get_attr_value attr store, (store, n))
  end.

(** The Maya queries of [M] with the [meta_uuid] attributes of [store]. *)
Definition with_attrs (M : maya) (store : list (string * option string)) : maya := {|
  ls_long := ls_long M;
  ls_names := ls_names M;
  ls_objects := ls_objects M;
  get_attr := fun attr => get_attr_value attr store
|}.

(** [collect_material_assignments(root, update_uuids)]: [hierarchy] is
    [get_hierarchy(root)], [shading_engines] is [get_shading_engines( *hierarchy)]
    and [raw_members se] is the [cmds.ls(cmds.sets(se, query=True), long=True)]
    of [get_members]. An exception ends the loop ([None]). *)
Definition collect_step (leaf raw_members : string -> list string)
    (gen : nat -> string) (hierarchy : list string) (root : string)
    (update_uuids : bool)
    (acc : option (list (string * group_data) * uuid_state)) (shading_engine : string)
  : option (list (string * group_data) * uuid_state) :=
  match acc with
  | None => None
  | Some (results, st) =>
      match get_members leaf (raw_members shading_engine) with
      | None => None
      | Some ms =>
          match collect_members hierarchy root ms with
          | None => None
          | Some members =>
              let '(uuid, st) := assign_uuid gen st shading_engine update_uuids in
              Some (Dict.set shading_engine (mkGroupData uuid members) results, st)
          end
      end
  end.

Definition collect_material_assignments (leaf raw_members : string -> list string)
    (gen : nat -> string) (hierarchy shading_engines : list string) (root : string)
    (update_uuids : bool) (st : uuid_state)
  : option (list (string * group_data) * uuid_state) :=
  fold_left (collect_step leaf raw_members gen hierarchy root update_uuids)
            shading_engines (Some ([], st)).

(* ------------------------------------------------------------------ *)
(** ** Names of [ShadingGroupsSet] (utils.py) *)

(** [strip_namespace(node)]: [node, component = node.split('.')] raises
    unless there are exactly two parts; an empty component is falsy. *)
Definition strip_namespace (node : string) : option string :=
  let parts :=
    if Py.has_char "." node
    then match unpack2 "." node with
         | Some (n, c) => Some (n, Some c)
         | None => None
         end
    else Some (node, None) in
  match parts with
  | None => None
  | Some (node, component) =>
      let no_namespace :=
        if Py.has_char ":" node then last (Py.split ":" node) "" else node in
      match component with
      | Some c => if String.eqb c "" then Some no_namespace
                  else Some (no_namespace ++ "." ++ c)
      | None => Some no_namespace
      end
  end.

(** [shorten_name(node)]: [strip_namespace] on every ['|'] segment. *)
Definition shorten_name (node : string) : option string :=
  if Py.has_char "|" node
  then option_map (String.concat "|") (all_ok (map strip_namespace (Py.split "|" node)))
  else strip_namespace node.

Definition shorten_names (nodes : list string) : option (list string) :=
  all_ok (map shorten_name nodes).

(** The pattern [find_members] looks up for one member; more than two
    parts raise [NameError]. *)
Definition find_member_pattern (member : string) : option string :=
  let parts := Py.split "." member in
  let pattern := hd "" parts ++ "*" in
  let pattern := match parts with
                 | [_; component] => pattern ++ "." ++ component
                 | _ => pattern
                 end in
  if Nat.ltb 2 (length parts) then None else Some pattern.

(** [find_members(members)]: [cmds.ls(pattern, recursive=True, long=True)]
    of every member, concatenated. *)
Definition find_members (M : maya) (members : list string) : option (list string) :=
  option_map (@List.concat string)
    (all_ok (map (fun m => option_map (ls_long M) (find_member_pattern m)) members)).

(* ------------------------------------------------------------------ *)
(** ** Attributes (utils.py and shadeset_lite.py) *)

(** Python values of attributes. *)
#[warnings="-register-all"]
Inductive pyval :=
| PNone
| PBool (b : bool)
| PInt (z : Z)
| PFloat (f : PrimFloat.float)
| PStr (s : string)
| PList (l : list pyval)
| PTuple (l : list pyval).

(** [args.extend(value)]: the items of a list, tuple or string; any other
    value raises [TypeError]. *)
Definition py_iter (v : pyval) : option (list pyval) :=
  match v with
  | PList l | PTuple l => Some l
  | PStr s => Some (map (fun a => PStr (String a "")) (list_ascii_of_string s))
  | _ => None
  end.

Definition py_in (x : string) (l : list string) : bool := existsb (String.eqb x) l.

(** The dict [get_attr_data] returns (utils.py); [children] is [None] or a
    list of [{'name', 'type', 'keyable'}]. *)
Record attr_data := mkAttrData {
  ad_name : string;
  ad_value : pyval;
  ad_type : string;
  ad_short : string;
  ad_nice : string;
  ad_compound : bool;
  ad_children : option (list (string * string * bool));
  ad_options : option (list string);
  ad_keyable : bool
}.

Definition dt_attrs : list string :=
  ["matrix"; "string"; "stringArray"; "doubleArray"; "Int32Array";
   "reflectance"; "spectrum"; "float2"; "float3"; "double2";
   "double3"; "long2"; "long3"; "short2"; "short3"; "vectorArray";
   "nurbsCurve"; "nurbsSurface"; "mesh"; "lattice"; "pointArray"].

(** [add_attr_kwargs(attr_data)] (utils.py), a dict in insertion order. *)
Definition add_attr_kwargs (a : attr_data) : list (string * pyval) :=
  let type_flag := if py_in (ad_type a) dt_attrs then "dt" else "at" in
  let type_flag := if ad_compound a then "at" else type_flag in
  let kwargs := [("longName", PStr (ad_name a)); ("shortName", PStr (ad_short a));
                 ("niceName", PStr (ad_nice a)); ("keyable", PBool (ad_keyable a))] in
  let kwargs := Dict.set type_flag (PStr (ad_type a)) kwargs in
  match ad_options a with
  | Some ((_ :: _) as options) =>
      Dict.set "enumName" (PStr (String.concat ":" options)) kwargs
  | _ => kwargs
  end.

Definition unpackable_types : list string :=
  ["float2"; "float3"; "double2"; "double3"; "long2"; "long3";
   "compound"; "spectrum"; "reflectance"; "matrix"; "fltMatrix";
   "reflectanceRBG"; "spectrumRGB"; "short2"; "short3"; "doubleArray";
   "Int32Array"; "vectorArray"].

Definition typeable_attrs : list string :=
  ["float2"; "float3"; "double2"; "double3"; "long2"; "long3";
   "compound"; "spectrum"; "reflectance"; "matrix"; "fltMatrix";
   "reflectanceRBG"; "spectrumRGB"; "short2"; "short3"; "doubleArray";
   "Int32Array"; "vectorArray"; "string"; "byte"].

(** [unpackable(attr_data)] and [typeable(attr_data)] (utils.py). *)
Definition unpackable (a : attr_data) : bool := py_in (ad_type a) unpackable_types.
Definition typeable (a : attr_data) : bool := py_in (ad_type a) typeable_attrs.

(** The arguments of the call [cmds.setAttr( *args, **kwargs)] of
    [set_attr_data] (utils.py), built after the [cmds.addAttr] calls for a
    missing attribute; [None] when building [args] raises. The [addAttr]
    calls and the [setAttr] call itself are not modelled here. *)
Definition set_attr_data_call (node : string) (a : attr_data)
  : option (list pyval * list (string * pyval)) :=
  let path := node ++ "." ++ ad_name a in
  let args := [PStr path] in
  let args := if unpackable a then option_map (List.app args) (py_iter (ad_value a))
              else Some (args ++ [ad_value a])%list in
  let kwargs := if typeable a then [("type", PStr (ad_type a))] else [] in
  option_map (fun args => (args, kwargs)) args.

(** [get_type_flag(type, compound)] of shadeset_lite.py. *)
Definition get_type_flag (type : string) (compound : bool) : string :=
  if compound then "attributeType" else
  if py_in type ["matrix"; "string"; "stringArray"; "doubleArray"; "Int32Array";
                 "reflectance"; "spectrum"; "float2"; "float3"; "double2";
                 "double3"; "long2"; "long3"; "short2"; "short3"; "vectorArray";
                 "nurbsCurve"; "nurbsSurface"; "mesh"; "lattice"; "pointArray"]
  then "dataType" else "attributeType".

(** [is_unpackable] and [is_typeable] of shadeset_lite.py. *)
Definition is_unpackable (type : string) : bool :=
  py_in type ["float2"; "float3"; "double2"; "double3"; "long2"; "long3";
              "compound"; "spectrum"; "reflectance"; "matrix"; "fltMatrix";
              "reflectanceRBG"; "spectrumRGB"; "short2"; "short3"; "doubleArray";
              "Int32Array"; "vectorArray"].

Definition is_typeable (type : string) : bool :=
  py_in type ["float2"; "float3"; "double2"; "double3"; "long2"; "long3";
              "compound"; "spectrum"; "reflectance"; "matrix"; "fltMatrix";
              "reflectanceRBG"; "spectrumRGB"; "short2"; "short3"; "doubleArray";
              "Int32Array"; "vectorArray"; "string"; "byte"].

(** The dict [get_attr_schema] returns (shadeset_lite.py). *)
Record attr_schema := mkSchema {
  sc_type : string;
  sc_longName : string;
  sc_shortName : string;
  sc_niceName : string;
  sc_children : list (string * string * bool * string);
  sc_enumName : option string;
  sc_keyable : bool;
  sc_usedAsColor : bool
}.

(** The call [cmds.setAttr( *args, **kwargs)] of [set_attr] (shadeset_lite.py).
    Without a schema the code tests [isinstance(type, ...)] on the builtin
    [type], which is neither a list, a tuple nor a string. *)
Definition set_attr_call (path attr : string) (value : pyval)
    (schema : option attr_schema) : option (list pyval * list (string * pyval)) :=
  let args := [PStr (path ++ "." ++ attr)] in
  match schema with
  | Some sc =>
      let attr_type := sc_type sc in
      let args := if is_unpackable attr_type then option_map (List.app args) (py_iter value)
                  else Some (args ++ [value])%list in
      let kwargs := if is_typeable attr_type then [("type", PStr (sc_type sc))] else [] in
      option_map (fun args => (args, kwargs)) args
  | None => Some ((args ++ [value])%list, [])
  end.

(* ------------------------------------------------------------------ *)
(** ** Vocabulary of the statements on captured members *)

(** The entity of a member token: the text before its first ['.']. *)
Definition token_entity (t : string) : string := hd "" (Py.split "." t).

(** The component selectors a token [obj.comp] gives to entity [e]. *)
Definition token_components (e t : string) : list string :=
  match unpack2 "." t with
  | Some (obj, comp) => if String.eqb obj e then [comp] else []
  | None => []
  end.

(** The entities of [l] appended to [seen] in order of first appearance. *)
Fixpoint first_seen (seen l : list string) : list string :=
  match l with
  | [] => seen
  | x :: l' =>
      first_seen (if existsb (String.eqb x) seen then seen else (seen ++ [x])%list) l'
  end.

(* ------------------------------------------------------------------ *)
(** ** Concrete inputs *)

(** A scene with [b] and [geo|a] under [|r], [geo|a] a second time under
    an extra group [x]; two shadingEngines are named [mtl1], in two
    namespaces. *)
Definition scene_r : scene := mkScene
  ["|r"; "|r|b"; "|r|geo"; "|r|geo|a"; "|r|x"; "|r|x|geo"; "|r|x|geo|a"]
  [("mtl1", Some "id1"); ("ns:mtl1", Some "id2");
   ("sgA", Some "idA"); ("sgB", Some "idB")].

(** Two shadingEngines whose members, captured under different parents,
    both resolve (loosely) to the same live paths at the same depth. *)
Definition snapshot_ab : list (string * group_data) :=
  [("sgA", mkGroupData (Some "idA") [mkMember "geo|a" []]);
   ("sgB", mkGroupData (Some "idB") [mkMember "old|a" []])].

(** Two shadingEngines splitting the faces of one mesh. *)
Definition snapshot_split : list (string * group_data) :=
  [("sgA", mkGroupData (Some "idA") [mkMember "geo|a" ["f[0:4]"]]);
   ("sgB", mkGroupData (Some "idB") [mkMember "geo|a" ["f[5:9]"]])].

(** A shadingEngine [mtl9] that the scene does not have, by name or by
    [meta_uuid]. *)
Definition snapshot_unresolved : list (string * group_data) :=
  [("mtl9", mkGroupData (Some "id9") [mkMember "geo|a" []])].

(** A deeper and a shallower capture competing for the same live path. *)
Definition snapshot_depth : list (string * group_data) :=
  [("sgA", mkGroupData (Some "idA") [mkMember "geo|a" []; mkMember "top|b" []]);
   ("sgB", mkGroupData (Some "idB") [mkMember "x|geo|a" []])].

(* ================================================================== *)
(** * Properties *)

(* ------------------------------------------------------------------ *)
(** ** Dicts *)

Module DictFacts.

Ltac streq :=
  repeat match goal with
  | |- context [String.eqb ?a ?b] => destruct (String.eqb_spec a b); subst
  | H : context [String.eqb ?a ?b] |- _ => destruct (String.eqb_spec a b); subst
  end.

Lemma get_list_append {V} (g k : string) (v : V) d :
  Dict.get_list g (Dict.append k v d) =
  if String.eqb g k then (Dict.get_list g d ++ [v])%list else Dict.get_list g d.
Proof.
  unfold Dict.get_list; induction d as [|[k' vs] d IH]; simpl.
  - streq; reflexivity.
  - destruct (String.eqb_spec k k'); subst; simpl.
    + destruct (String.eqb_spec g k'); reflexivity.
    + destruct (String.eqb_spec g k'); subst.
      * destruct (String.eqb_spec k' k); [congruence | reflexivity].
      * exact IH.
Qed.

Lemma get_list_setdefault {V} (g k : string) (d : list (string * list V)) :
  Dict.get_list g (Dict.setdefault k d) = Dict.get_list g d.
Proof.
  unfold Dict.get_list; induction d as [|[k' vs] d IH]; simpl.
  - streq; reflexivity.
  - destruct (String.eqb_spec k k'); subst; simpl; [reflexivity|].
    destruct (String.eqb_spec g k'); [reflexivity | exact IH].
Qed.

(** The keys after [d[k].append(v)] or [d.setdefault(k, [])]. *)
Definition add_key (k : string) (ks : list string) : list string :=
  if existsb (String.eqb k) ks then ks else (ks ++ [k])%list.

Lemma keys_append {V} k (v : V) d :
  map fst (Dict.append k v d) = add_key k (map fst d).
Proof.
  unfold add_key; induction d as [|[k' vs] d IH]; simpl; [reflexivity|].
  destruct (String.eqb_spec k k'); simpl; [reflexivity|].
  rewrite IH; destruct (existsb (String.eqb k) (map fst d)); reflexivity.
Qed.

Lemma keys_setdefault {V} k (d : list (string * list V)) :
  map fst (Dict.setdefault k d) = add_key k (map fst d).
Proof.
  unfold add_key; induction d as [|[k' vs] d IH]; simpl; [reflexivity|].
  destruct (String.eqb_spec k k'); simpl; [reflexivity|].
  rewrite IH; destruct (existsb (String.eqb k) (map fst d)); reflexivity.
Qed.

Lemma NoDup_add_key k ks : NoDup ks -> NoDup (add_key k ks).
Proof.
  unfold add_key; intros H.
  destruct (existsb (String.eqb k) ks) eqn:E; [exact H|].
  apply NoDup_app; [exact H | constructor; [intros [] | constructor] |].
  intros x Hx [Hkx | []]; subst x.
  assert (existsb (String.eqb k) ks = true)
    by (apply existsb_exists; exists k; split; [exact Hx | apply String.eqb_refl]).
  congruence.
Qed.

Lemma get_In {V} k (d : list (string * V)) v :
  Dict.get k d = Some v -> In (k, v) d.
Proof.
  induction d as [|[k' v'] d IH]; simpl; [discriminate|].
  destruct (String.eqb_spec k k'); [intros [= <-]; subst; left; reflexivity|].
  intros H; right; exact (IH H).
Qed.

Lemma In_get {V} k (d : list (string * V)) v :
  NoDup (map fst d) -> In (k, v) d -> Dict.get k d = Some v.
Proof.
  induction d as [|[k' v'] d IH]; simpl; [intros _ []|].
  intros Hnd [[= <- <-] | Hin]; inversion Hnd as [|? ? Hnot Hnd']; subst.
  - rewrite String.eqb_refl; reflexivity.
  - destruct (String.eqb_spec k k'); [|exact (IH Hnd' Hin)].
    subst; exfalso; apply Hnot; apply (in_map fst _ _ Hin).
Qed.

(** What an entry of [d[k].append(v)] holds. *)
Lemma In_append {V} k0 (v : V) d k vs :
  In (k, vs) (Dict.append k0 v d) ->
  (k = k0 /\ exists vs0, vs = (vs0 ++ [v])%list /\ (vs0 = [] \/ In (k, vs0) d))
  \/ In (k, vs) d.
Proof.
  induction d as [|[k' vs'] d IH]; simpl.
  - intros [[= <- <-] | []]; left; split; [reflexivity|]; exists []; auto.
  - destruct (String.eqb_spec k0 k'); subst; simpl.
    + intros [[= <- <-] | Hin]; [left; split; [reflexivity|]|auto].
      exists vs'; split; [reflexivity|]; right; left; reflexivity.
    + intros [[= <- <-] | Hin]; [right; left; reflexivity|].
      destruct (IH Hin) as [[-> [vs0 [-> Hvs0]]] | H']; [left | right; right; exact H'].
      split; [reflexivity|]; exists vs0; split; [reflexivity|].
      destruct Hvs0; auto.
Qed.

End DictFacts.

Lemma fold_left_ext {A B} (f g : A -> B -> A) l a :
  (forall a x, f a x = g a x) -> fold_left f l a = fold_left g l a.
Proof.
  intros H; revert a; induction l as [|x l IH]; intros a; simpl; [reflexivity|].
  rewrite H; apply IH.
Qed.

(* ------------------------------------------------------------------ *)
(** ** The reconciliation index and the depth tie-break *)

Module Reconcile.
Import DictFacts.

(** Python's [max] returns the first element of greatest key: every
    element before it has a smaller key, none after it a greater one. *)
Lemma fold_max_split {A} (key : A -> nat) xs x w :
  fold_left (fun b y => if Nat.ltb (key b) (key y) then y else b) xs x = w ->
  exists l1 l2, x :: xs = (l1 ++ w :: l2)%list /\
    (forall y, In y l1 -> key y < key w) /\ (forall y, In y l2 -> key y <= key w).
Proof.
  revert x; induction xs as [|y ys IH]; intros x Hw; simpl in Hw.
  - subst; exists [], []; repeat split; simpl; [intros ? []|intros ? []].
  - destruct (Nat.ltb_spec (key x) (key y)) as [Hlt|Hge].
    + destruct (IH y Hw) as [l1 [l2 [Heq [H1 H2]]]].
      assert (key y <= key w) as Hyw.
      { destruct l1 as [|z l1]; simpl in Heq; injection Heq as Heq1 Heq2.
        - rewrite Heq1; apply le_n.
        - subst z; specialize (H1 y (or_introl eq_refl)); lia. }
      exists (x :: l1), l2; split; [simpl; rewrite Heq; reflexivity|split; [|exact H2]].
      intros z [<-|Hz]; [lia | exact (H1 z Hz)].
    + destruct (IH x Hw) as [l1 [l2 [Heq [H1 H2]]]].
      destruct l1 as [|z l1]; simpl in Heq; injection Heq as Heq1 Heq2.
      * subst ys; rewrite <- Heq1 in *.
        exists [], (y :: l2); split; [reflexivity|split; [intros ? []|]].
        intros z [<-|Hz]; [lia | exact (H2 z Hz)].
      * subst z; exists (x :: y :: l1), l2; split; [simpl; rewrite Heq2; reflexivity|].
        split; [|exact H2].
        pose proof (H1 x (or_introl eq_refl)) as Hxw.
        intros z [<-|[<-|Hz]]; [exact Hxw | lia | exact (H1 z (or_intror Hz))].
Qed.

Lemma py_max_split {A} (key : A -> nat) xs w :
  py_max key xs = Some w ->
  exists l1 l2, xs = (l1 ++ w :: l2)%list /\
    (forall y, In y l1 -> key y < key w) /\ (forall y, In y l2 -> key y <= key w).
Proof.
  destruct xs as [|x xs]; simpl; [discriminate|].
  intros [= Hw]; exact (fold_max_split key xs x w Hw).
Qed.

Lemma py_max_greatest {A} (key : A -> nat) xs w :
  py_max key xs = Some w -> In w xs /\ forall y, In y xs -> key y <= key w.
Proof.
  intros H; destruct (py_max_split key xs w H) as [l1 [l2 [-> [H1 H2]]]].
  split; [apply in_or_app; right; left; reflexivity|].
  intros y Hy; apply in_app_or in Hy as [Hy|[<-|Hy]];
    [specialize (H1 y Hy); lia | lia | exact (H2 y Hy)].
Qed.

Lemma py_max_some {A} (key : A -> nat) xs :
  xs <> [] -> exists w, py_max key xs = Some w.
Proof. destruct xs; simpl; [congruence | eauto]. Qed.

(** The shape of the index built by the first loop: one entry per live
    path, never empty, each candidate a member of its own group. *)
Definition index_ok (assignments : list (string * group_data))
    (d : list (string * list candidate)) : Prop :=
  NoDup (map fst d) /\
  forall p cs, In (p, cs) d -> cs <> [] /\
    forall c, In c cs -> exists data,
      In (c_engine c, data) assignments /\ In (c_member c) (members data).

Lemma index_ok_nil assignments : index_ok assignments [].
Proof. split; [constructor | intros ? ? []]. Qed.

Lemma index_ok_append assignments d p c :
  index_ok assignments d ->
  (exists data, In (c_engine c, data) assignments /\ In (c_member c) (members data)) ->
  index_ok assignments (Dict.append p c d).
Proof.
  intros [Hnd Hd] Hc; split.
  - rewrite keys_append; apply NoDup_add_key; exact Hnd.
  - intros q cs Hin; apply In_append in Hin as [[-> [vs0 [-> Hvs0]]] | Hin].
    + split; [intros Hnil; apply app_eq_nil in Hnil as [_ Hnil]; discriminate|].
      intros x Hx; apply in_app_or in Hx as [Hx | [<- | []]]; [|exact Hc].
      destruct Hvs0 as [-> | Hvs0]; [destruct Hx|].
      exact (proj2 (Hd _ _ Hvs0) x Hx).
    + exact (Hd q cs Hin).
Qed.

Lemma matched_index_ok M assignments root member_namespace material_namespace strict :
  index_ok assignments
    (matched_member_assignments M assignments root member_namespace
       material_namespace strict).
Proof.
  unfold matched_member_assignments.
  assert (Hgen : forall l acc, incl l assignments -> index_ok assignments acc ->
    index_ok assignments
      (fold_left (add_engine M root member_namespace material_namespace strict) l acc)).
  { induction l as [|[se data] l IH]; intros acc Hincl Hacc; simpl; [exact Hacc|].
    apply IH; [intros x Hx; apply Hincl; right; exact Hx|].
    destruct (String.eqb se ""); [exact Hacc|].
    assert (Hse : In (se, data) assignments) by (apply Hincl; left; reflexivity).
    clear IH Hincl.
    assert (Hms : forall ms acc, incl ms (members data) -> index_ok assignments acc ->
      index_ok assignments
        (fold_left (add_member M root member_namespace strict se) ms acc)).
    { induction ms as [|m ms IHms]; intros acc' Hincl Hacc'; simpl; [exact Hacc'|].
      apply IHms; [intros x Hx; apply Hincl; right; exact Hx|].
      unfold add_member, add_matches.
      generalize (find_matching_paths M (m_path m) root member_namespace strict).
      intros matches; revert acc' Hacc'.
      induction matches as [|p ps IHps]; intros acc' Hacc'; simpl; [exact Hacc'|].
      apply IHps, index_ok_append; [exact Hacc'|].
      exists data; split; [exact Hse | apply Hincl; left; reflexivity]. }
    apply Hms; [intros x Hx; exact Hx | exact Hacc]. }
  apply Hgen; [intros x Hx; exact Hx | apply index_ok_nil].
Qed.

(** The candidates of one live path that the second loop keeps. *)
Lemma keep_best_fold path best_path cands acc g e :
  In e (Dict.get_list g (fold_left (keep_best path best_path) cands acc)) <->
  In e (Dict.get_list g acc) \/
  exists c, In c cands /\ m_path (c_member c) = best_path /\ c_engine c = g /\
            e = mkMember path (m_components (c_member c)).
Proof.
  revert acc; induction cands as [|c cs IH]; intros acc; simpl.
  - split; [auto | intros [H | [? [[] _]]]; exact H].
  - rewrite IH; unfold keep_best.
    destruct (String.eqb_spec (m_path (c_member c)) best_path) as [Hbp|Hbp].
    + rewrite get_list_append.
      destruct (String.eqb_spec g (c_engine c)) as [Hg|Hg].
      * rewrite in_app_iff; simpl; split.
        -- intros [[H | [<- | []]] | [c' [Hc' H']]]; [auto| |].
           ++ right; exists c; auto.
           ++ right; exists c'; auto.
        -- intros [H | [c' [[<- | Hc'] H']]]; [auto | |].
           ++ destruct H' as [_ [_ ->]]; left; right; left; reflexivity.
           ++ right; exists c'; auto.
      * split.
        -- intros [H | [c' [Hc' H']]]; [auto | right; exists c'; auto].
        -- intros [H | [c' [[<- | Hc'] H']]]; [auto | | right; exists c'; auto].
           exfalso; apply Hg; symmetry; apply H'.
    + split.
      * intros [H | [c' [Hc' H']]]; [auto | right; exists c'; auto].
      * intros [H | [c' [[<- | Hc'] H']]]; [auto | | right; exists c'; auto].
        exfalso; apply Hbp; apply H'.
Qed.

(** The members the second loop gives a shadingEngine: exactly those of
    the kept candidates ([best_candidates]) of each live path. *)
Lemma best_shading_assignments_In matched g e :
  In e (Dict.get_list g (best_shading_assignments matched)) <->
  exists p cs c, In (p, cs) matched /\ In c (best_candidates cs) /\
    c_engine c = g /\ e = mkMember p (m_components (c_member c)).
Proof.
  unfold best_shading_assignments.
  assert (Hgen : forall l acc,
    In e (Dict.get_list g (fold_left best_step l acc)) <->
    In e (Dict.get_list g acc) \/
    exists p cs c, In (p, cs) l /\ In c (best_candidates cs) /\
      c_engine c = g /\ e = mkMember p (m_components (c_member c))).
  { induction l as [|[p cs] l IH]; intros acc; simpl.
    - split; [auto | intros [H | [? [? [? [[] _]]]]]; exact H].
    - rewrite IH; unfold best_candidates.
      destruct (py_max depth cs) as [w|] eqn:Hw.
      + rewrite keep_best_fold; split.
        * intros [[H | [c [Hc [Hp [Hg He]]]]] | [p' [cs' [c [Hin H]]]]]; [auto | |].
          -- right; exists p, cs, c; split; [left; reflexivity|].
             rewrite Hw.
             split; [apply filter_In; split; [exact Hc | apply String.eqb_eq; exact Hp]|].
             auto.
          -- right; exists p', cs', c; auto.
        * intros [H | [p' [cs' [c [[Hpc | Hin] [Hc H]]]]]]; [auto | |].
          -- injection Hpc as <- <-; rewrite Hw in Hc; left; right; exists c.
             apply filter_In in Hc as [Hc Hp]; apply String.eqb_eq in Hp; auto.
          -- right; exists p', cs', c; auto.
      + split.
        * intros [H | [p' [cs' [c [Hin H]]]]]; [auto | right; exists p', cs', c; auto].
        * intros [H | [p' [cs' [c [[Hpc | Hin] [Hc H]]]]]]; [auto | |].
          -- injection Hpc as <- <-; rewrite Hw in Hc; destruct Hc.
          -- right; exists p', cs', c; auto. }
  rewrite Hgen; unfold Dict.get_list; simpl; split; [intros [[]|H]; exact H | auto].
Qed.

End Reconcile.

(* ------------------------------------------------------------------ *)
(** ** Per-path results of the reconciliation *)

Module ReconcileFacts.
Import DictFacts Reconcile.

Lemma index_entry M assignments root mns matns strict p cs :
  Dict.get p (matched_member_assignments M assignments root mns matns strict) = Some cs ->
  exists w, py_max depth cs = Some w /\ In w cs /\
    (forall c, In c cs -> depth c <= depth w) /\
    best_candidates cs =
      filter (fun c => String.eqb (m_path (c_member c)) (m_path (c_member w))) cs.
Proof.
  intros Hget; apply get_In in Hget.
  destruct (matched_index_ok M assignments root mns matns strict) as [_ Hok].
  destruct (py_max_some depth cs (proj1 (Hok _ _ Hget))) as [w Hw].
  destruct (py_max_greatest depth cs w Hw) as [Hin Hge].
  exists w; split; [exact Hw|]; split; [exact Hin|]; split; [exact Hge|].
  unfold best_candidates; rewrite Hw; reflexivity.
Qed.

(** The members given to the shadingEngines for live path [p] come from
    the candidates of [p] alone. *)
Lemma path_members M assignments root mns matns strict p cs g comps :
  let matched := matched_member_assignments M assignments root mns matns strict in
  Dict.get p matched = Some cs ->
  In (mkMember p comps) (Dict.get_list g (best_shading_assignments matched)) <->
  exists c, In c (best_candidates cs) /\ c_engine c = g /\
            comps = m_components (c_member c).
Proof.
  intros matched Hget.
  destruct (matched_index_ok M assignments root mns matns strict) as [Hnd _].
  rewrite best_shading_assignments_In; split.
  - intros [p' [cs' [c [Hin [Hc [Hg He]]]]]]; injection He as -> ->.
    apply (In_get p' matched cs' Hnd) in Hin; rewrite Hget in Hin; injection Hin as ->.
    exists c; auto.
  - intros [c [Hc [Hg ->]]]; exists p, cs, c; split; [apply get_In; exact Hget|].
    auto.
Qed.

Lemma member_path_is_key M assignments root mns matns strict g e :
  let matched := matched_member_assignments M assignments root mns matns strict in
  In e (Dict.get_list g (best_shading_assignments matched)) ->
  exists cs, Dict.get (m_path e) matched = Some cs.
Proof.
  intros matched He; apply best_shading_assignments_In in He
    as [p [cs [c [Hin [_ [_ ->]]]]]].
  destruct (matched_index_ok M assignments root mns matns strict) as [Hnd _].
  exists cs; apply In_get; assumption.
Qed.

End ReconcileFacts.

(* ------------------------------------------------------------------ *)
(** ** Claims on the reconciliation *)

Import DictFacts Reconcile ReconcileFacts.

(** C1: for every live path of the index, the winning candidate is one
    of greatest source depth (count of ['|'] in its member path); the
    members kept for that path are exactly those of the candidates whose
    member path equals the winner's, so every strictly shallower candidate
    is dropped for it, and the entries of other live paths depend on their
    own candidates only. *)
Theorem reconcile_deepest_source_wins M assignments root mns matns strict p cs :
  Dict.get p (matched_member_assignments M assignments root mns matns strict) = Some cs ->
  exists w, py_max depth cs = Some w /\ In w cs /\
    (forall c, In c cs -> depth c <= depth w) /\
    (forall c, In c cs -> depth c < depth w -> m_path (c_member c) <> m_path (c_member w)) /\
    (forall g comps,
       In (mkMember p comps)
          (Dict.get_list g (best_shading_assignments
             (matched_member_assignments M assignments root mns matns strict))) <->
       exists c, In c cs /\ m_path (c_member c) = m_path (c_member w) /\
                 c_engine c = g /\ comps = m_components (c_member c)).
Proof.
  intros Hget.
  destruct (index_entry M assignments root mns matns strict p cs Hget)
    as [w [Hw [Hin [Hge Hbest]]]].
  exists w; split; [exact Hw|]; split; [exact Hin|]; split; [exact Hge|]; split.
  - intros c _ Hlt Heq; unfold depth in Hlt; rewrite Heq in Hlt; lia.
  - intros g comps; rewrite (path_members M assignments root mns matns strict p cs g comps Hget).
    rewrite Hbest; split.
    + intros [c [Hc [Hg Hcomps]]]; apply filter_In in Hc as [Hc Hp].
      apply String.eqb_eq in Hp; exists c; auto.
    + intros [c [Hc [Hp [Hg Hcomps]]]]; exists c; split; [|auto].
      apply filter_In; split; [exact Hc | apply String.eqb_eq; exact Hp].
Qed.

(** Witness of C1: in [scene_r], [|r|geo|a] is claimed by [geo|a] (depth 1)
    and [x|geo|a] (depth 2); the deeper one wins. *)
Lemma reconcile_deepest_source_wins_witness :
  exists cs, Dict.get "|r|geo|a"
    (matched_member_assignments (scene_maya scene_r) snapshot_depth "|r" None None false)
    = Some cs /\
  exists w, py_max depth cs = Some w /\ In w cs /\ c_engine w = "sgB".
Proof.
  eexists; split; [vm_compute; reflexivity|].
  destruct (reconcile_deepest_source_wins (scene_maya scene_r) snapshot_depth "|r"
              None None false "|r|geo|a" _ eq_refl) as [w [Hw [Hin _]]].
  exists w; split; [exact Hw|]; split; [exact Hin|].
  vm_compute in Hw; injection Hw as <-; reflexivity.
Defined.

(** C2 (counterexample): two shadingEngines splitting the faces of one
    mesh both receive the live path [|r|geo|a]. *)
Lemma reconcile_split_faces_share_path :
  let best := best_shading_assignments
    (matched_member_assignments (scene_maya scene_r) snapshot_split "|r" None None false) in
  In (mkMember "|r|geo|a" ["f[0:4]"]) (Dict.get_list "sgA" best) /\
  In (mkMember "|r|geo|a" ["f[5:9]"]) (Dict.get_list "sgB" best).
Proof. vm_compute; auto. Qed.

(** C2 (amended): a live path is given to two shadingEngines [g1] and [g2]
    only when both have a candidate for it whose member path is the
    winner's; so when the candidates with the winning member path all
    belong to one shadingEngine, the path is given to that one alone. *)
Theorem reconcile_shared_path_needs_winning_source M assignments root mns matns strict
    g1 g2 e1 e2 :
  let best := best_shading_assignments
    (matched_member_assignments M assignments root mns matns strict) in
  In e1 (Dict.get_list g1 best) -> In e2 (Dict.get_list g2 best) ->
  m_path e1 = m_path e2 ->
  exists cs w c1 c2,
    Dict.get (m_path e1) (matched_member_assignments M assignments root mns matns strict)
      = Some cs /\
    py_max depth cs = Some w /\ In c1 cs /\ In c2 cs /\
    c_engine c1 = g1 /\ c_engine c2 = g2 /\
    m_path (c_member c1) = m_path (c_member w) /\ m_path (c_member c2) = m_path (c_member w).
Proof.
  intros best H1 H2 Hp.
  destruct (member_path_is_key M assignments root mns matns strict g1 e1 H1) as [cs Hget].
  destruct (index_entry M assignments root mns matns strict _ cs Hget)
    as [w [Hw [_ [_ Hbest]]]].
  destruct e1 as [p comps1], e2 as [p2 comps2]; simpl in Hp, Hget |- *; subst p2.
  apply (path_members M assignments root mns matns strict p cs g1 comps1 Hget) in H1
    as [c1 [Hc1 [Hg1 _]]].
  apply (path_members M assignments root mns matns strict p cs g2 comps2 Hget) in H2
    as [c2 [Hc2 [Hg2 _]]].
  rewrite Hbest in Hc1, Hc2.
  apply filter_In in Hc1 as [Hc1 Hp1], Hc2 as [Hc2 Hp2].
  apply String.eqb_eq in Hp1, Hp2.
  exists cs, w, c1, c2; auto 10.
Qed.

(** Witness of the amended C2: the split faces of [snapshot_split]. *)
Lemma reconcile_shared_path_needs_winning_source_witness :
  exists cs w c1 c2,
    Dict.get "|r|geo|a"
      (matched_member_assignments (scene_maya scene_r) snapshot_split "|r" None None false)
      = Some cs /\
    py_max depth cs = Some w /\ In c1 cs /\ In c2 cs /\
    c_engine c1 = "sgA" /\ c_engine c2 = "sgB" /\
    m_path (c_member c1) = m_path (c_member w) /\ m_path (c_member c2) = m_path (c_member w).
Proof.
  apply (reconcile_shared_path_needs_winning_source (scene_maya scene_r) snapshot_split
           "|r" None None false "sgA" "sgB"
           (mkMember "|r|geo|a" ["f[0:4]"]) (mkMember "|r|geo|a" ["f[5:9]"]));
    [vm_compute; auto | vm_compute; auto | reflexivity].
Defined.

(** C3 (counterexample): enumerating the same two shadingEngines in the
    other order gives the contested paths to the other shadingEngine; both
    sources have depth 1, and neither run orders them lexicographically. *)
Lemma reconcile_depends_on_snapshot_order :
  apply_material_assignments (scene_maya scene_r) snapshot_ab "|r" None None false
    = [("sgA", ["|r|geo|a"; "|r|x|geo|a"])] /\
  apply_material_assignments (scene_maya scene_r) (rev snapshot_ab) "|r" None None false
    = [("sgB", ["|r|geo|a"; "|r|x|geo|a"])].
Proof. split; vm_compute; reflexivity. Qed.

(** C3 (amended): the winner of a live path is the first of its
    candidates, in the order the snapshot's shadingEngines, their members
    and the scene's matches are enumerated, among those of greatest depth:
    every earlier candidate is strictly shallower and no later one is
    deeper; the path keeps the candidates with the winner's member path. *)
Theorem reconcile_first_deepest_candidate_wins M assignments root mns matns strict p cs :
  Dict.get p (matched_member_assignments M assignments root mns matns strict) = Some cs ->
  exists l1 w l2, cs = (l1 ++ w :: l2)%list /\ py_max depth cs = Some w /\
    (forall y, In y l1 -> depth y < depth w) /\
    (forall y, In y l2 -> depth y <= depth w) /\
    best_candidates cs =
      filter (fun c => String.eqb (m_path (c_member c)) (m_path (c_member w))) cs.
Proof.
  intros Hget.
  destruct (index_entry M assignments root mns matns strict p cs Hget)
    as [w [Hw [_ [_ Hbest]]]].
  destruct (py_max_split depth cs w Hw) as [l1 [l2 [Hcs [H1 H2]]]].
  exists l1, w, l2; auto.
Qed.

(** Witness of the amended C3: in [snapshot_ab] the first candidate wins. *)
Lemma reconcile_first_deepest_candidate_wins_witness :
  exists cs, Dict.get "|r|geo|a"
    (matched_member_assignments (scene_maya scene_r) snapshot_ab "|r" None None false)
    = Some cs /\
  exists l1 w l2, cs = (l1 ++ w :: l2)%list /\ py_max depth cs = Some w.
Proof.
  eexists; split; [vm_compute; reflexivity|].
  destruct (reconcile_first_deepest_candidate_wins (scene_maya scene_r) snapshot_ab "|r"
              None None false "|r|geo|a" _ eq_refl) as [l1 [w [l2 [H1 [H2 _]]]]].
  exists l1, w, l2; auto.
Defined.

(* ------------------------------------------------------------------ *)
(** ** Claims on the shadingEngine lookup *)

Lemma best_keys l acc g :
  In g (map fst (fold_left best_step l acc)) ->
  In g (map fst acc) \/ exists p cs c, In (p, cs) l /\ In c cs /\ c_engine c = g.
Proof.
  revert acc; induction l as [|[p cs] l IH]; intros acc H; simpl in H; [auto|].
  apply IH in H as [H | [p' [cs' [c [Hin Hc]]]]];
    [| right; exists p', cs', c; simpl; auto].
  unfold best_step in H; destruct (py_max depth cs) as [w|]; [|auto].
  assert (Hin : forall l0 acc0, incl l0 cs ->
    In g (map fst (fold_left (keep_best p (m_path (c_member w))) l0 acc0)) ->
    In g (map fst acc0) \/ exists c, In c cs /\ c_engine c = g).
  { induction l0 as [|c l0 IH0]; intros acc0 Hincl H0; simpl in H0; [auto|].
    assert (Hincl' : incl l0 cs) by (intros x Hx; apply Hincl; right; exact Hx).
    destruct (IH0 _ Hincl' H0) as [H1 | H1]; [|auto]; clear H0; rename H1 into H0.
    unfold keep_best in H0; destruct (String.eqb _ _); [|auto].
    rewrite keys_append in H0; unfold add_key in H0.
    destruct (existsb _ _); [auto|].
    apply in_app_or in H0 as [H0 | [<- | []]]; [auto|].
    right; exists c; split; [apply Hincl; left|]; reflexivity. }
  destruct (Hin cs acc (fun x Hx => Hx) H) as [H' | [c [Hc Hg]]]; [auto|].
  right; exists p, cs, c; simpl; auto.
Qed.

(** C10: the shadingEngine given to [assign_shading_engine] is the
    snapshot's own key: the calls do not depend on what the name and
    [meta_uuid] queries of [find_shading_engine] return (only the DAG
    query matters), and every shadingEngine assigned is a key of the
    assignments dict. *)
Theorem reconcile_assigns_snapshot_names M1 M2 assignments root mns matns strict :
  (forall pattern, ls_long M1 pattern = ls_long M2 pattern) ->
  apply_material_assignments M1 assignments root mns matns strict =
  apply_material_assignments M2 assignments root mns matns strict /\
  forall g xs,
    In (g, xs) (apply_material_assignments M1 assignments root mns matns strict) ->
    exists data, In (g, data) assignments.
Proof.
  intros Hls; split.
  - unfold apply_material_assignments, matched_member_assignments; f_equal; f_equal.
    apply fold_left_ext; intros acc [se data]; simpl.
    destruct (String.eqb se ""); [reflexivity|].
    apply fold_left_ext; intros acc' m; unfold add_member, find_matching_paths.
    rewrite Hls; reflexivity.
  - intros g xs H; unfold apply_material_assignments in H.
    apply in_map_iff in H as [[g' ms] [Heq Hin]]; injection Heq as -> _.
    apply (in_map fst) in Hin; simpl in Hin.
    apply best_keys in Hin as [[] | [p [cs [c [Hin [Hc <-]]]]]].
    destruct (matched_index_ok M1 assignments root mns matns strict) as [_ Hok].
    destruct (proj2 (Hok _ _ Hin) c Hc) as [data [Hd _]]; exists data; exact Hd.
Qed.

(** Witness of C10: the scene without its shadingEngines makes the same
    calls as [scene_r]. *)
Lemma reconcile_assigns_snapshot_names_witness :
  apply_material_assignments (scene_maya scene_r) snapshot_depth "|r" None None false =
  apply_material_assignments (scene_maya (mkScene (dag scene_r) [])) snapshot_depth
    "|r" None None false.
Proof.
  apply (reconcile_assigns_snapshot_names (scene_maya scene_r)
           (scene_maya (mkScene (dag scene_r) []))); intros pattern; reflexivity.
Defined.

(** C4 (failing input): no shadingEngine of the scene is [mtl9], by name
    or by [meta_uuid], yet [if not shading_engine] tests the snapshot key,
    so the group is not skipped: materials.py assigns its members to
    [mtl9], shadeset_lite.py to [None]. *)
Lemma reconcile_unresolved_group_not_skipped :
  find_shading_engine (scene_maya scene_r) "mtl9" (Some "id9") None = None /\
  apply_material_assignments (scene_maya scene_r) snapshot_unresolved "|r" None None true
    = [("mtl9", ["|r|geo|a"; "|r|x|geo|a"])] /\
  apply_material_assignments_lite (scene_maya scene_r) snapshot_unresolved "|r" None None true
    = [(None, ["|r|geo|a"; "|r|x|geo|a"])].
Proof. repeat split; vm_compute; reflexivity. Qed.

(** C7: [find_shading_engine] follows its policy in order: a unique name
    match; else, for a truthy [uuid], a unique [meta_uuid] match; else the
    first name match, then the first [meta_uuid] match, else [None] (it
    never raises: it is a total function). *)
Theorem find_shading_engine_policy M shading_engine uuid namespace :
  (forall g, ls_names M (fst (lookups shading_engine namespace)) = [g] ->
     find_shading_engine M shading_engine uuid namespace = Some g) /\
  (length (ls_names M (fst (lookups shading_engine namespace))) <> 1 ->
   Py.truthy uuid = true ->
   forall g, uuid_matches M (snd (lookups shading_engine namespace)) uuid = [g] ->
     find_shading_engine M shading_engine uuid namespace = Some g) /\
  (length (ls_names M (fst (lookups shading_engine namespace))) <> 1 ->
   length (uuid_matches M (snd (lookups shading_engine namespace)) uuid) <> 1 ->
   find_shading_engine M shading_engine uuid namespace =
   hd_error (ls_names M (fst (lookups shading_engine namespace)) ++
             uuid_matches M (snd (lookups shading_engine namespace)) uuid)%list).
Proof.
  unfold find_shading_engine.
  destruct (lookups shading_engine namespace) as [name_lookup uuid_lookup]; simpl.
  split; [|split].
  - intros g ->; reflexivity.
  - intros Hn Hu g Hg; apply Nat.eqb_neq in Hn; rewrite Hn, Hu, Hg; reflexivity.
  - intros Hn Hu; apply Nat.eqb_neq in Hn, Hu; rewrite Hn, Hu, andb_false_r.
    destruct (ls_names M name_lookup); reflexivity.
Qed.

(** Witness of C7 (the spec's scenario C): [mtl1] names two shadingEngines
    of [scene_r]; the one tagged [id2] is returned. *)
Lemma find_shading_engine_policy_witness :
  find_shading_engine (scene_maya scene_r) "mtl1" (Some "id2") None = Some "ns:mtl1".
Proof.
  apply (find_shading_engine_policy (scene_maya scene_r) "mtl1" (Some "id2") None);
    vm_compute; [discriminate | reflexivity | reflexivity].
Defined.

(* ------------------------------------------------------------------ *)
(** ** Claims on the path lookup *)

(** C5 (counterexample): in strict mode, [geo|a] under root [|r] also
    finds [|r|x|geo|a], which has the extra segment [x] between the root
    and the pattern. *)
Lemma strict_lookup_finds_extra_segments :
  find_matching_paths (scene_maya scene_r) "geo|a" "|r" None true
    = ["|r|geo|a"; "|r|x|geo|a"] /\
  "|r|x|geo|a" <> "|r" ++ "|" ++ "geo|a".
Proof. split; [vm_compute; reflexivity | discriminate]. Qed.

(** C5 (amended): strict mode does not join the root to the pattern: it
    keeps, in order, the results of the scene query [*|path] ([path] with
    its leading ['|'] stripped) that start with the root (trailing ['|']
    stripped) followed by ['|'] and, for a truthy namespace, whose leaf
    starts with it; a path with extra segments between the root and the
    pattern is kept whenever the query returns it. *)
Theorem find_matching_paths_strict M path root namespace :
  find_matching_paths M path root namespace true =
    filter (fun m =>
              Py.startswith m (Py.rstrip "|" root ++ "|") &&
              (negb (Py.truthy namespace) ||
               match namespace with
               | Some ns => Py.startswith (Py.rpartition_last "|" m) ns
               | None => true
               end))
           (ls_long M ("*|" ++ Py.lstrip "|" path)) /\
  (forall m,
     In m (find_matching_paths M path root namespace true) <->
     In m (ls_long M ("*|" ++ Py.lstrip "|" path)) /\
     Py.startswith m (Py.rstrip "|" root ++ "|") = true /\
     (Py.truthy namespace = false \/
      exists ns, namespace = Some ns /\ Py.startswith (Py.rpartition_last "|" m) ns = true)).
Proof.
  split.
  - unfold find_matching_paths, match_pattern; cbv zeta iota.
    apply filter_ext_in; intros m _; unfold keep_match.
    destruct namespace as [ns|].
    + destruct (Py.truthy (Some ns)), (Py.startswith m _),
        (Py.startswith (Py.rpartition_last "|" m) ns); reflexivity.
    + destruct (Py.startswith m _); reflexivity.
  - intros m.
    unfold find_matching_paths, match_pattern, keep_match; simpl.
    rewrite filter_In, !andb_true_iff, negb_true_iff, andb_false_iff, negb_false_iff.
    split.
    + intros [Hin [Hns Hroot]]; split; [exact Hin|]; split; [exact Hroot|].
      destruct Hns as [Hns | Hns]; [left; exact Hns|].
      destruct namespace as [ns|]; [right; exists ns; auto | left; reflexivity].
    + intros [Hin [Hroot Hns]]; split; [exact Hin|]; split; [|exact Hroot].
      destruct Hns as [Hns | [ns [-> Hns]]]; [left; exact Hns | right; exact Hns].
Qed.

Module StrFacts.

Lemma append_assoc (s t u : string) : (s ++ t) ++ u = s ++ t ++ u.
Proof. induction s as [|a s IH]; simpl; [reflexivity | rewrite IH; reflexivity]. Qed.

Lemma length_append (s t : string) : String.length (s ++ t) = String.length s + String.length t.
Proof. induction s as [|a s IH]; simpl; [reflexivity | rewrite IH; reflexivity]. Qed.

Lemma prefix_append (s t : string) : String.prefix s (s ++ t) = true.
Proof.
  induction s as [|a s IH]; simpl; [destruct t; reflexivity|].
  destruct (ascii_dec a a) as [_|n]; [exact IH | congruence].
Qed.

Lemma substring_all n t : String.length t <= n -> substring 0 n t = t.
Proof.
  revert n; induction t as [|a t IH]; intros n Hn; destruct n; simpl in *;
    try reflexivity; try lia.
  rewrite IH; [reflexivity | lia].
Qed.

Lemma substring_after (s t : string) n :
  String.length t <= n -> substring (String.length s) n (s ++ t) = t.
Proof.
  intros Hn; induction s as [|a s IH]; simpl; [apply substring_all; exact Hn|].
  destruct n; [simpl in *|]; exact IH.
Qed.

Lemma replace1_unfold old new s :
  Py.replace1 old new s =
  if String.prefix old s then new ++ substring (String.length old) (String.length s) s
  else match s with
       | EmptyString => EmptyString
       | String a s' => String a (Py.replace1 old new s')
       end.
Proof. destruct s; reflexivity. Qed.

(** [(s + t).replace(s, '', 1)] is [t]. *)
Lemma replace1_prefix (s t : string) : Py.replace1 s "" (s ++ t) = t.
Proof.
  rewrite replace1_unfold, prefix_append; simpl.
  apply substring_after; rewrite length_append; lia.
Qed.

Lemma has_char_append c (s t : string) :
  Py.has_char c (s ++ t) = Py.has_char c s || Py.has_char c t.
Proof.
  induction s as [|a s IH]; simpl; [reflexivity|].
  rewrite IH, orb_assoc; reflexivity.
Qed.

Lemma rstrip_no_char c s : Py.has_char c s = false -> Py.rstrip c s = s.
Proof.
  induction s as [|a s IH]; simpl; [reflexivity|].
  intros H; apply orb_false_iff in H as [Ha Hs].
  rewrite IH, Ha, andb_false_r by exact Hs; reflexivity.
Qed.

Lemma rstrip_append c (s t : string) :
  Py.rstrip c t <> "" -> Py.rstrip c (s ++ t) = s ++ Py.rstrip c t.
Proof.
  intros Ht; induction s as [|a s IH]; simpl; [reflexivity|].
  rewrite IH.
  destruct (String.eqb_spec (s ++ Py.rstrip c t) "") as [E|E]; [|reflexivity].
  destruct s; simpl in E; [congruence | discriminate].
Qed.

Lemma split_cons c s : exists w ws, Py.split c s = w :: ws.
Proof.
  induction s as [|a s [w [ws IH]]]; simpl; [eauto|].
  rewrite IH; destruct (Ascii.eqb a c); eauto.
Qed.

Lemma split_no_char c s : Py.has_char c s = false -> Py.split c s = [s].
Proof.
  induction s as [|a s IH]; simpl; [reflexivity|].
  intros H; apply orb_false_iff in H as [Ha Hs]; rewrite IH, Ha by exact Hs.
  reflexivity.
Qed.

Lemma split_sep c (s t : string) :
  Py.split c (s ++ String c t) = (Py.split c s ++ Py.split c t)%list.
Proof.
  induction s as [|a s IH]; simpl.
  - destruct (split_cons c t) as [w [ws ->]]; rewrite Ascii.eqb_refl; reflexivity.
  - rewrite IH; destruct (split_cons c s) as [w [ws ->]]; simpl.
    destruct (Ascii.eqb a c); reflexivity.
Qed.

(** [(s + c + t).rpartition(c)[-1]] is [t] when [t] has no [c]. *)
Lemma rpartition_last_sep c (s t : string) :
  Py.has_char c t = false -> Py.rpartition_last c (s ++ String c t) = t.
Proof.
  intros Ht; unfold Py.rpartition_last; rewrite split_sep, (split_no_char c t Ht).
  rewrite last_last; reflexivity.
Qed.

End StrFacts.

Import StrFacts.

(** C6 (counterexample): [|other|a] is not under [|geo], and
    [get_relative_paths] returns it unchanged instead of failing. *)
Lemma relative_paths_keep_outside_path :
  get_relative_paths ["|other|a"] "|geo" = Some ["|other|a"].
Proof. vm_compute; reflexivity. Qed.

Lemma anchor_of_root parent anchor :
  Py.has_char "|" anchor = false -> anchor <> "" ->
  Py.has_char "|" (parent ++ "|" ++ anchor) = true /\
  Py.rpartition_last "|" (Py.rstrip "|" (parent ++ "|" ++ anchor)) = anchor.
Proof.
  intros Hc Hne; split.
  - rewrite has_char_append; simpl; destruct (Py.has_char "|" parent); reflexivity.
  - assert (Ht : Py.rstrip "|" ("|" ++ anchor) = "|" ++ anchor).
    { simpl; rewrite (rstrip_no_char _ _ Hc).
      destruct (String.eqb_spec anchor ""); [congruence | reflexivity]. }
    rewrite rstrip_append, Ht by (rewrite Ht; discriminate).
    apply rpartition_last_sep; exact Hc.
Qed.

(** C6 (amended): [get_relative_paths] never fails for a path outside the
    root: for a root [parent|anchor] (with [anchor] a non-empty name), each
    path that does not start with the root is returned unchanged, and each
    path [root|r] ([r] not starting with ['|']) becomes [anchor|r], which
    re-joined to [parent] gives the path back. *)
Theorem get_relative_paths_under_root parent anchor paths :
  Py.has_char "|" anchor = false -> anchor <> "" ->
  exists out, get_relative_paths paths (parent ++ "|" ++ anchor) = Some out /\
  Forall2 (fun path o =>
     (Py.startswith path (parent ++ "|" ++ anchor) = false -> o = path) /\
     (forall r, path = parent ++ "|" ++ anchor ++ "|" ++ r -> Py.lstrip "|" r = r ->
        o = anchor ++ "|" ++ r))
    paths out.
Proof.
  intros Hc Hne; destruct (anchor_of_root parent anchor Hc Hne) as [Hhas Hanc].
  unfold get_relative_paths; rewrite Hhas, Hanc.
  induction paths as [|path paths [out [Hout Hf]]]; cbn [map all_ok].
  - exists []; split; [reflexivity | constructor].
  - unfold relative_path at 1.
    destruct (Py.startswith path (parent ++ "|" ++ anchor)) eqn:Hs; rewrite Hout;
      simpl; eexists; (split; [reflexivity|]); constructor; try exact Hf; split.
    + simpl in Hs; intros Hf'; congruence.
    + intros r -> Hr.
      assert (E : parent ++ String "|" (anchor ++ String "|" r)
                  = (parent ++ String "|" anchor) ++ String "|" r)
        by (rewrite append_assoc; reflexivity).
      rewrite E, replace1_prefix; simpl; rewrite Hr; reflexivity.
    + intros _; reflexivity.
    + intros r -> Hr; simpl in Hs.
      assert (E : parent ++ String "|" (anchor ++ String "|" r)
                  = (parent ++ String "|" anchor) ++ String "|" r)
        by (rewrite append_assoc; reflexivity).
      rewrite E in Hs; unfold Py.startswith in Hs; rewrite prefix_append in Hs; discriminate.
Qed.

(** Witness of the amended C6: root [|geo], an inside and an outside
    path. *)
Lemma get_relative_paths_under_root_witness :
  exists out, get_relative_paths ["|geo|a"; "|other|a"] ("" ++ "|" ++ "geo") = Some out.
Proof.
  destruct (get_relative_paths_under_root "" "geo" ["|geo|a"; "|other|a"])
    as [out [H _]]; [reflexivity | discriminate |].
  exists out; exact H.
Defined.

(* ------------------------------------------------------------------ *)
(** ** [format_members] *)

Module FormatFacts.
Import DictFacts.

Lemma split_length c s : length (Py.split c s) = S (Py.count_char c s).
Proof.
  induction s as [|a s IH]; simpl; [reflexivity|].
  destruct (split_cons c s) as [w [ws Hs]]; rewrite Hs in *; simpl in *.
  destruct (Ascii.eqb a c); simpl; lia.
Qed.

Lemma count_has_char c s : Py.has_char c s = false -> Py.count_char c s = 0.
Proof.
  induction s as [|a s IH]; simpl; [reflexivity|].
  intros H; apply orb_false_iff in H as [-> Hs]; simpl; exact (IH Hs).
Qed.

Lemma split_two c s :
  Py.has_char c s = true -> Py.count_char c s <= 1 ->
  exists a b, Py.split c s = [a; b].
Proof.
  intros Hh Hc; pose proof (split_length c s) as Hl.
  assert (Py.count_char c s <> 0).
  { clear Hl Hc; induction s as [|a s IH]; simpl in *; [discriminate|].
    destruct (Ascii.eqb a c); simpl; [lia | exact (IH Hh)]. }
  destruct (Py.split c s) as [|a [|b [|x l]]]; simpl in Hl; try lia; eauto.
Qed.

Lemma add_key_idem k ks : add_key k (add_key k ks) = add_key k ks.
Proof.
  unfold add_key; destruct (existsb (String.eqb k) ks) eqn:E; [rewrite E; reflexivity|].
  rewrite existsb_app; simpl; rewrite String.eqb_refl, orb_true_r; reflexivity.
Qed.

Lemma first_seen_add_key x seen l :
  first_seen seen (x :: l) = first_seen (add_key x seen) l.
Proof. reflexivity. Qed.

Lemma format_fold toks acc :
  forallb (fun t => Nat.leb (Py.count_char "." t) 1) toks = true ->
  exists acc', fold_left format_step toks (Some acc) = Some acc' /\
    map fst acc' = first_seen (map fst acc) (map token_entity toks) /\
    forall k, Dict.get_list k acc' =
              (Dict.get_list k acc ++ flat_map (token_components k) toks)%list.
Proof.
  revert acc; induction toks as [|t toks IH]; intros acc Hall; simpl in *.
  - exists acc; split; [reflexivity|]; split; [reflexivity|].
    intros k; rewrite app_nil_r; reflexivity.
  - apply andb_true_iff in Hall as [Ht Hall]; apply Nat.leb_le in Ht.
    cbn [format_step].
    destruct (Py.has_char "." t) eqn:Hh.
    + destruct (split_two "." t Hh Ht) as [obj [comp Hs]].
      unfold unpack2 at 1; rewrite Hs.
      destruct (IH (Dict.append obj comp (Dict.setdefault obj acc)) Hall)
        as [acc' [Hf [Hk Hg]]].
      exists acc'; split; [exact Hf|]; split.
      * rewrite Hk, keys_append, keys_setdefault, add_key_idem.
        unfold token_entity; rewrite Hs; reflexivity.
      * intros k; rewrite Hg, get_list_append, get_list_setdefault.
        unfold token_components, unpack2; rewrite Hs, String.eqb_sym.
        destruct (String.eqb obj k); simpl; try rewrite <- app_assoc; reflexivity.
    + destruct (IH (Dict.setdefault t acc) Hall) as [acc' [Hf [Hk Hg]]].
      exists acc'; split; [exact Hf|]; split.
      * rewrite Hk, keys_setdefault.
        unfold token_entity; rewrite (split_no_char "." t Hh); reflexivity.
      * intros k; rewrite Hg, get_list_setdefault.
        unfold token_components, unpack2; rewrite (split_no_char "." t Hh).
        reflexivity.
Qed.

Lemma NoDup_first_seen seen l : NoDup seen -> NoDup (first_seen seen l).
Proof.
  revert seen; induction l as [|x l IH]; intros seen H; simpl; [exact H|].
  apply IH; exact (NoDup_add_key x seen H).
Qed.

Lemma In_first_seen x seen l : In x l -> In x (first_seen seen l).
Proof.
  assert (Hkeep : forall y seen l, In y seen -> In y (first_seen seen l)).
  { intros y seen0 l0; revert seen0; induction l0 as [|z l0 IH]; intros seen0 Hy;
      simpl; [exact Hy|].
    apply IH; destruct (existsb _ _); [exact Hy | apply in_or_app; left; exact Hy]. }
  revert seen; induction l as [|z l IH]; intros seen Hx; [destruct Hx|]; simpl.
  destruct Hx as [->|Hx]; [|apply IH; exact Hx].
  apply Hkeep; destruct (existsb (String.eqb x) seen) eqn:E.
  - apply existsb_exists in E as [y [Hy Hxy]]; apply String.eqb_eq in Hxy; subst; exact Hy.
  - apply in_or_app; right; left; reflexivity.
Qed.

(** [format_members] groups the tokens by entity, in order of first
    appearance, each entity with all its selectors in order. *)
Lemma format_members_spec toks :
  forallb (fun t => Nat.leb (Py.count_char "." t) 1) toks = true ->
  exists ms, format_members toks = Some ms /\
    map m_path ms = first_seen [] (map token_entity toks) /\
    NoDup (map m_path ms) /\
    forall m, In m ms -> m_components m = flat_map (token_components (m_path m)) toks.
Proof.
  intros Hall; destruct (format_fold toks [] Hall) as [acc [Hf [Hk Hg]]].
  unfold format_members; rewrite Hf; simpl.
  assert (Hpaths : map m_path (map (fun '(k, v) => mkMember k v) acc) = map fst acc).
  { rewrite map_map; apply map_ext; intros [k v]; reflexivity. }
  assert (Hnd : NoDup (map fst acc)) by (rewrite Hk; apply NoDup_first_seen; constructor).
  eexists; split; [reflexivity|]; rewrite Hpaths; split; [exact Hk|]; split; [exact Hnd|].
  intros m Hm; apply in_map_iff in Hm as [[k v] [<- Hin]]; simpl.
  specialize (Hg k); unfold Dict.get_list in Hg.
  rewrite (In_get k acc v Hnd Hin) in Hg; exact Hg.
Qed.

End FormatFacts.

(* ------------------------------------------------------------------ *)
(** ** Face ranges covering a whole mesh *)

Module FaceFacts.

Lemma list_ascii_app (s t : string) :
  list_ascii_of_string (s ++ t) = (list_ascii_of_string s ++ list_ascii_of_string t)%list.
Proof. induction s as [|a s IH]; simpl; [reflexivity | rewrite IH; reflexivity]. Qed.

Lemma span_digits_app l a r :
  forallb is_digit l = true -> is_digit a = false ->
  span_digits (l ++ a :: r) = (l, a :: r).
Proof.
  induction l as [|b l IH]; simpl; intros Hl Ha.
  - rewrite Ha; reflexivity.
  - apply andb_true_iff in Hl as [Hb Hl]; rewrite Hb, (IH Hl Ha); reflexivity.
Qed.

Lemma forallb_rev {A} (f : A -> bool) l : forallb f (rev l) = forallb f l.
Proof.
  induction l as [|a l IH]; simpl; [reflexivity|].
  rewrite forallb_app, IH; simpl; rewrite andb_true_r, andb_comm; reflexivity.
Qed.

Lemma digits_no_dot d :
  forallb is_digit (list_ascii_of_string d) = true -> Py.has_char "." d = false.
Proof.
  induction d as [|a d IH]; simpl; [reflexivity|].
  intros H; apply andb_true_iff in H as [Ha Hd]; rewrite (IH Hd), orb_false_r.
  destruct (Ascii.eqb_spec a "."); [subst; discriminate | reflexivity].
Qed.

Lemma face_range_search_full e d :
  d <> "" -> forallb is_digit (list_ascii_of_string d) = true ->
  face_range_search (e ++ ".f[0:" ++ d ++ "]") = Some (".f[0:" ++ d ++ "]", d).
Proof.
  intros Hd Hdig.
  assert (E : rev (list_ascii_of_string (e ++ ".f[0:" ++ d ++ "]")) =
              ("]" :: rev (list_ascii_of_string d) ++
               ":" :: "0" :: "[" :: "f" :: "." :: rev (list_ascii_of_string e))%char%list).
  { rewrite !list_ascii_app; simpl; rewrite !rev_app_distr; simpl; rewrite !rev_app_distr; simpl.
    rewrite <- !app_assoc; reflexivity. }
  unfold face_range_search, face_range_at_end; rewrite E.
  rewrite span_digits_app by first [rewrite forallb_rev; exact Hdig | reflexivity].
  destruct (rev (list_ascii_of_string d)) as [|x xs] eqn:Hr.
  - destruct d; [congruence|]; simpl in Hr; apply app_eq_nil in Hr as [_ Hr]; discriminate.
  - rewrite <- Hr, rev_involutive, string_of_list_ascii_of_string; reflexivity.
Qed.

Lemma append_nil_r (s : string) : s ++ "" = s.
Proof. induction s as [|a s IH]; simpl; [reflexivity | rewrite IH; reflexivity]. Qed.

Lemma prefix_refl s : String.prefix s s = true.
Proof. rewrite <- (append_nil_r s) at 2. apply StrFacts.prefix_append. Qed.

Lemma replace_scan_past old new k s :
  String.length s <= k -> Py.replace_scan old new k s = "".
Proof.
  revert k; induction s as [|a s IH]; intros k Hk; simpl in *; [reflexivity|].
  destruct k as [|k]; [lia | apply IH; lia].
Qed.

Lemma replace_scan_no_dot m new e t :
  Py.has_char "." e = false ->
  Py.replace_scan (String "." m) new 0 (e ++ t) = e ++ Py.replace_scan (String "." m) new 0 t.
Proof.
  induction e as [|a e IH]; intros H; [reflexivity|].
  cbn [Py.has_char] in H; cbn [String.append Py.replace_scan String.prefix].
  apply orb_false_iff in H as [Ha He]; rewrite (IH He).
  destruct (ascii_dec "." a) as [<-|_]; [discriminate | reflexivity].
Qed.

Lemma replace_suffix e m :
  Py.has_char "." e = false -> Py.replace (e ++ String "." m) (String "." m) "" = e.
Proof.
  intros He; unfold Py.replace; simpl String.eqb; cbv iota.
  rewrite replace_scan_no_dot by exact He; simpl.
  destruct (ascii_dec "." ".") as [_|n]; [|congruence].
  rewrite prefix_refl, Nat.sub_0_r, replace_scan_past by lia; simpl.
  apply append_nil_r.
Qed.

End FaceFacts.

Import FormatFacts FaceFacts.

(** C8, counterexample: [collect_material_assignments] never asks how many
    faces a mesh has; the full range [f[0:9]] of a 10-face mesh [geo|a] is
    captured as a component selector, not as whole-entity membership. *)
Lemma capture_keeps_full_face_range :
  collect_members ["|geo"; "|geo|a"] "|geo" ["|geo|a.f[0:9]"] =
  Some [mkMember "geo|a" ["f[0:9]"]].
Proof. vm_compute; reflexivity. Qed.

(** C8, amended: the collapse to whole-entity only happens in
    [filter_bad_face_assignments] (used when gathering [ShadingGroupsSet]):
    a token [e.f[0:d]] becomes [e] exactly when [int(d) + 1] is the face
    count of [e], and is kept otherwise; [format_members], the last step of
    the capture, keeps such a selector as a component of [e]. *)
Theorem face_collapse_outside_capture num_faces e d toks :
  Py.has_char "." e = false -> d <> "" ->
  forallb is_digit (list_ascii_of_string d) = true ->
  filter_bad_face_assignments num_faces [e ++ ".f[0:" ++ d ++ "]"] =
    [if Z.eqb (py_int d + 1) (num_faces e) then e else e ++ ".f[0:" ++ d ++ "]"] /\
  (forallb (fun t => Nat.leb (Py.count_char "." t) 1) toks = true ->
   In (e ++ ".f[0:" ++ d ++ "]") toks ->
   exists ms m, format_members toks = Some ms /\ In m ms /\ m_path m = e /\
                In ("f[0:" ++ d ++ "]") (m_components m)).
Proof.
  intros He Hd Hdig; split.
  - unfold filter_bad_face_assignments; cbn [map].
    rewrite face_range_search_full by assumption.
    change (".f[0:" ++ d ++ "]") with (String "." ("f[0:" ++ d ++ "]")).
    rewrite replace_suffix by exact He; reflexivity.
  - intros Hall Hin.
    destruct (format_members_spec toks Hall) as [ms [Hf [Hp [_ Hc]]]].
    assert (Hs : Py.split "." (e ++ ".f[0:" ++ d ++ "]") = [e; "f[0:" ++ d ++ "]"]).
    { change (".f[0:" ++ d ++ "]") with (String "." ("f[0:" ++ d ++ "]")).
      rewrite split_sep, (split_no_char "." e He), split_no_char; [reflexivity|].
      change ("f[0:" ++ d ++ "]") with ("f[0:" ++ (d ++ "]")).
      rewrite !has_char_append, (digits_no_dot d Hdig); reflexivity. }
    assert (Hm : In e (map m_path ms)).
    { rewrite Hp; apply In_first_seen; apply in_map_iff.
      exists (e ++ ".f[0:" ++ d ++ "]"); split; [|exact Hin].
      unfold token_entity; rewrite Hs; reflexivity. }
    apply in_map_iff in Hm as [m [Hpm Hm]].
    exists ms, m; split; [exact Hf|]; split; [exact Hm|]; split; [exact Hpm|].
    rewrite (Hc m Hm), Hpm; apply in_flat_map.
    exists (e ++ ".f[0:" ++ d ++ "]"); split; [exact Hin|].
    unfold token_components, unpack2; rewrite Hs, String.eqb_refl; left; reflexivity.
Qed.

Lemma face_collapse_outside_capture_witness :
  Py.has_char "." "a" = false /\ "9" <> "" /\
  forallb is_digit (list_ascii_of_string "9") = true /\
  (filter_bad_face_assignments (fun _ => 10%Z) ["a" ++ ".f[0:" ++ "9" ++ "]"] =
    [if Z.eqb (py_int "9" + 1) 10 then "a" else "a" ++ ".f[0:" ++ "9" ++ "]"] /\
  (forallb (fun t => Nat.leb (Py.count_char "." t) 1) ["a"; "a.f[0:9]"] = true ->
   In ("a" ++ ".f[0:" ++ "9" ++ "]") ["a"; "a.f[0:9]"] ->
   exists ms m, format_members ["a"; "a.f[0:9]"] = Some ms /\ In m ms /\ m_path m = "a" /\
                In ("f[0:" ++ "9" ++ "]") (m_components m))).
Proof.
  split; [reflexivity|]; split; [discriminate|]; split; [reflexivity|].
  apply (face_collapse_outside_capture (fun _ => 10%Z) "a" "9" ["a"; "a.f[0:9]"]);
    [reflexivity | discriminate | reflexivity].
Defined.

(** C9, counterexample: a whole-entity token does not win over a selector of
    the same entity; the selectors are kept. *)
Lemma whole_entity_does_not_win :
  format_members ["a"; "a.f[1]"] = Some [mkMember "a" ["f[1]"]].
Proof. vm_compute; reflexivity. Qed.

(** C9, amended: for tokens with at most one ['.'], [format_members] gives
    one member per distinct entity path (the text before the ['.']), in
    order of first appearance, and each member's components are the
    selectors of all tokens [path.comp] of that entity, in order, with
    duplicates kept; a token without ['.'] adds no component and does not
    clear the others. *)
Theorem format_members_groups_selectors toks :
  forallb (fun t => Nat.leb (Py.count_char "." t) 1) toks = true ->
  exists ms, format_members toks = Some ms /\
    map m_path ms = first_seen [] (map token_entity toks) /\
    NoDup (map m_path ms) /\
    forall m, In m ms -> m_components m = flat_map (token_components (m_path m)) toks.
Proof. exact (format_members_spec toks). Qed.

Lemma format_members_groups_selectors_witness :
  forallb (fun t => Nat.leb (Py.count_char "." t) 1) ["a"; "b.f[2]"; "a.f[1]"] = true /\
  exists ms, format_members ["a"; "b.f[2]"; "a.f[1]"] = Some ms /\
    map m_path ms = first_seen [] (map token_entity ["a"; "b.f[2]"; "a.f[1]"]) /\
    NoDup (map m_path ms) /\
    forall m, In m ms ->
      m_components m = flat_map (token_components (m_path m)) ["a"; "b.f[2]"; "a.f[1]"].
Proof.
  split; [reflexivity|].
  apply (format_members_groups_selectors ["a"; "b.f[2]"; "a.f[1]"]); reflexivity.
Defined.

(* ================================================================== *)
(** * Further properties of the code *)

(* ------------------------------------------------------------------ *)
(** ** Characters of derived strings *)

Module CharFacts.
Import StrFacts FormatFacts.

(** Every character of [x] is one of [y]. *)
Definition chars_sub (x y : string) : Prop :=
  forall a, Py.has_char a x = true -> Py.has_char a y = true.

Lemma has_char_String a b s : Py.has_char a (String b s) = Ascii.eqb b a || Py.has_char a s.
Proof. reflexivity. Qed.

Lemma split_elem_chars c s w :
  In w (Py.split c s) -> forall a, Py.has_char a w = true -> Py.has_char a s = true /\ a <> c.
Proof.
  revert w; induction s as [|b s IH]; intros w Hw a Ha.
  - simpl in Hw; destruct Hw as [<-|[]]; discriminate.
  - destruct (split_cons c s) as [w0 [ws Hs]].
    cbn [Py.split] in Hw; rewrite Hs in Hw; rewrite has_char_String.
    destruct (Ascii.eqb_spec b c) as [->|Hbc].
    + destruct Hw as [<-|Hw]; [discriminate|].
      rewrite Hs in IH; destruct (IH w Hw a Ha) as [H1 H2]; rewrite H1, orb_true_r; auto.
    + destruct Hw as [<-|Hw].
      * rewrite has_char_String in Ha; destruct (Ascii.eqb_spec b a) as [Hba|Hba].
        -- subst b; split; [reflexivity | exact Hbc].
        -- rewrite Hs in IH; destruct (IH w0 (or_introl eq_refl) a Ha) as [H1 H2].
           rewrite H1, orb_true_r; auto.
      * rewrite Hs in IH; destruct (IH w (or_intror Hw) a Ha) as [H1 H2].
        rewrite H1, orb_true_r; auto.
Qed.

Lemma split_elem_no_sep c s w : In w (Py.split c s) -> Py.has_char c w = false.
Proof.
  intros Hw; destruct (Py.has_char c w) eqn:E; [|reflexivity].
  destruct (split_elem_chars c s w Hw c E) as [_ []]; reflexivity.
Qed.

Lemma last_In {A} (l : list A) d : l <> [] -> In (last l d) l.
Proof.
  induction l as [|x l IH]; intros H; [congruence|].
  destruct l as [|y l]; [left; reflexivity|].
  right; apply IH; discriminate.
Qed.

Lemma rpartition_last_chars c s : chars_sub (Py.rpartition_last c s) s.
Proof.
  intros a Ha; unfold Py.rpartition_last in Ha.
  destruct (split_cons c s) as [w [ws Hs]].
  assert (Hin : In (last (Py.split c s) "") (Py.split c s)) by (rewrite Hs; apply last_In; discriminate).
  exact (proj1 (split_elem_chars c s _ Hin a Ha)).
Qed.

Lemma rstrip_chars c s : chars_sub (Py.rstrip c s) s.
Proof.
  induction s as [|b s IH]; intros a Ha; [exact Ha|].
  cbn [Py.rstrip] in Ha; rewrite has_char_String.
  destruct (String.eqb (Py.rstrip c s) "" && Ascii.eqb b c); [discriminate|].
  rewrite has_char_String in Ha; apply orb_true_iff in Ha as [Ha|Ha].
  - rewrite Ha; reflexivity.
  - rewrite (IH a Ha), orb_true_r; reflexivity.
Qed.

Lemma count_append c (s t : string) :
  Py.count_char c (s ++ t) = Py.count_char c s + Py.count_char c t.
Proof. induction s as [|a s IH]; simpl; [reflexivity | rewrite IH; lia]. Qed.

Lemma has_char_count c s : Py.has_char c s = true <-> Py.count_char c s <> 0.
Proof.
  induction s as [|a s IH]; simpl; [split; [discriminate | congruence]|].
  destruct (Ascii.eqb a c); simpl; [split; [lia | reflexivity]|exact IH].
Qed.

Lemma count_lstrip c d s : Py.count_char d (Py.lstrip c s) <= Py.count_char d s.
Proof.
  induction s as [|a s IH]; simpl; [lia|].
  destruct (Ascii.eqb a c); simpl; [lia | destruct (Ascii.eqb a d); lia].
Qed.

(** [sep.join(s.split(sep))] gives [s] back. *)
Lemma split_join c s : String.concat (String c "") (Py.split c s) = s.
Proof.
  induction s as [|b s IH]; [reflexivity|].
  destruct (split_cons c s) as [w [ws Hs]]; cbn [Py.split]; rewrite Hs; rewrite Hs in IH.
  destruct (Ascii.eqb_spec b c) as [->|_].
  - change (String.concat (String c "") ("" :: w :: ws))
      with (String c (String.concat (String c "") (w :: ws))).
    rewrite IH; reflexivity.
  - assert (E : String.concat (String c "") (String b w :: ws)
                = String b (String.concat (String c "") (w :: ws)))
      by (destruct ws; reflexivity).
    rewrite E, IH; reflexivity.
Qed.

Lemma split_two_eq c s a b : Py.split c s = [a; b] -> s = a ++ String c b.
Proof. intros H; rewrite <- (split_join c s), H; reflexivity. Qed.

Lemma split_concat c l :
  l <> [] -> Forall (fun w => Py.has_char c w = false) l ->
  Py.split c (String.concat (String c "") l) = l.
Proof.
  induction l as [|w l IH]; intros Hne Hl; [congruence|].
  inversion Hl as [|? ? Hw Hl']; subst.
  destruct l as [|y l].
  - simpl; apply split_no_char; exact Hw.
  - change (String.concat (String c "") (w :: y :: l))
      with (w ++ String c (String.concat (String c "") (y :: l))).
    rewrite split_sep, (split_no_char c w Hw), IH by (discriminate || exact Hl').
    reflexivity.
Qed.

Lemma count_concat c l :
  Forall (fun w => Py.has_char c w = false) l ->
  Py.count_char c (String.concat (String c "") l) = length l - 1.
Proof.
  induction l as [|w l IH]; intros Hl; [reflexivity|].
  inversion Hl as [|? ? Hw Hl']; subst.
  destruct l as [|y l].
  - simpl; rewrite (count_has_char c w Hw); reflexivity.
  - change (String.concat (String c "") (w :: y :: l))
      with (w ++ String c (String.concat (String c "") (y :: l))).
    rewrite count_append; cbn [Py.count_char]; rewrite Ascii.eqb_refl, (IH Hl'), (count_has_char c w Hw).
    simpl; lia.
Qed.

Lemma prefix_app (a p t : string) : String.prefix a p = true -> String.prefix a (p ++ t) = true.
Proof.
  revert p; induction a as [|x a IH]; intros p H; [destruct (p ++ t); reflexivity|].
  destruct p as [|y p]; [discriminate|]; simpl in *.
  destruct (ascii_dec x y); [exact (IH p H) | discriminate].
Qed.

Lemma prefix_split (a p : string) : String.prefix a p = true -> exists t, p = a ++ t.
Proof.
  revert p; induction a as [|x a IH]; intros p H; [exists p; reflexivity|].
  destruct p as [|y p]; [discriminate|]; simpl in H.
  destruct (ascii_dec x y) as [<-|]; [|discriminate].
  destruct (IH p H) as [t ->]; exists t; reflexivity.
Qed.

End CharFacts.

(* ------------------------------------------------------------------ *)
(** ** Namespace stripping *)

Module NameFacts.
Import StrFacts FormatFacts CharFacts.

(** The [no_namespace] of [strip_namespace]: the text after the last [':']. *)
Definition no_ns (x : string) : string :=
  if Py.has_char ":" x then last (Py.split ":" x) "" else x.

Lemma no_ns_props x : Py.has_char ":" (no_ns x) = false /\ chars_sub (no_ns x) x.
Proof.
  unfold no_ns; destruct (Py.has_char ":" x) eqn:Hx.
  - destruct (split_cons ":" x) as [w [ws Hs]].
    assert (Hin : In (last (Py.split ":" x) "") (Py.split ":" x))
      by (rewrite Hs; apply last_In; discriminate).
    split; [exact (split_elem_no_sep _ _ _ Hin)|].
    intros a Ha; exact (proj1 (split_elem_chars _ _ _ Hin a Ha)).
  - split; [exact Hx | intros a Ha; exact Ha].
Qed.

Lemma no_ns_id x : Py.has_char ":" x = false -> no_ns x = x.
Proof. unfold no_ns; intros H; rewrite H; reflexivity. Qed.

Lemma strip_namespace_cases n r :
  strip_namespace n = Some r ->
  (Py.has_char "." n = false /\ r = no_ns n) \/
  (Py.has_char "." n = true /\ exists o c, Py.split "." n = [o; c] /\
     r = if String.eqb c "" then no_ns o else no_ns o ++ "." ++ c).
Proof.
  unfold strip_namespace; destruct (Py.has_char "." n) eqn:Hd.
  - unfold unpack2; destruct (Py.split "." n) as [|o [|c [|x l]]] eqn:Hs;
      try discriminate.
    intros H; right; split; [reflexivity|]; exists o, c; split; [reflexivity|].
    fold (no_ns o) in H; destruct (String.eqb c ""); congruence.
  - intros H; left; split; [reflexivity|]; fold (no_ns n) in H; congruence.
Qed.

Lemma strip_plain y :
  Py.has_char "." y = false -> Py.has_char ":" y = false -> strip_namespace y = Some y.
Proof. intros Hd Hc; unfold strip_namespace; rewrite Hd; fold (no_ns y); rewrite no_ns_id; auto. Qed.

Lemma no_dot_split n o c : Py.split "." n = [o; c] ->
  Py.has_char "." o = false /\ Py.has_char "." c = false /\ chars_sub o n /\ chars_sub c n.
Proof.
  intros Hs.
  assert (Ho : In o (Py.split "." n)) by (rewrite Hs; left; reflexivity).
  assert (Hc : In c (Py.split "." n)) by (rewrite Hs; right; left; reflexivity).
  split; [exact (split_elem_no_sep _ _ _ Ho)|]; split; [exact (split_elem_no_sep _ _ _ Hc)|].
  split; intros a Ha; [exact (proj1 (split_elem_chars _ _ _ Ho a Ha))
                      | exact (proj1 (split_elem_chars _ _ _ Hc a Ha))].
Qed.

Lemma no_dot_sub x y : chars_sub x y -> Py.has_char "." y = false -> Py.has_char "." x = false.
Proof. intros H Hy; destruct (Py.has_char "." x) eqn:E; [rewrite (H _ E) in Hy|]; auto. Qed.

(** [strip_namespace] is idempotent. *)
Lemma strip_idem n r : strip_namespace n = Some r -> strip_namespace r = Some r.
Proof.
  intros H; destruct (strip_namespace_cases n r H) as [[Hd ->] | [Hd [o [c [Hs ->]]]]].
  - destruct (no_ns_props n) as [Hc Hsub].
    apply strip_plain; [exact (no_dot_sub _ _ Hsub Hd) | exact Hc].
  - destruct (no_dot_split n o c Hs) as [Ho [Hc _]].
    destruct (no_ns_props o) as [Hoc Hsub].
    assert (Hod : Py.has_char "." (no_ns o) = false) by exact (no_dot_sub _ _ Hsub Ho).
    destruct (String.eqb_spec c "") as [Hce|Hne]; [apply strip_plain; assumption|].
    unfold strip_namespace.
    change ("." ++ c) with (String "." c).
    rewrite has_char_append, Hod, has_char_String, Ascii.eqb_refl; cbn [orb].
    unfold unpack2.
    rewrite split_sep, (split_no_char _ _ Hod), (split_no_char _ _ Hc); cbn.
    fold (no_ns (no_ns o)); rewrite (no_ns_id _ Hoc).
    destruct (String.eqb_spec c ""); [congruence | reflexivity].
Qed.

Lemma strip_chars n r : strip_namespace n = Some r -> chars_sub r n.
Proof.
  intros H; destruct (strip_namespace_cases n r H) as [[Hd ->] | [Hd [o [c [Hs ->]]]]].
  - exact (proj2 (no_ns_props n)).
  - destruct (no_dot_split n o c Hs) as [_ [_ [Ho Hc]]].
    destruct (no_ns_props o) as [_ Hsub].
    intros a Ha; destruct (String.eqb c ""); [exact (Ho a (Hsub a Ha))|].
    rewrite has_char_append in Ha; apply orb_true_iff in Ha as [Ha|Ha];
      [exact (Ho a (Hsub a Ha))|].
    change ("." ++ c) with (String "." c) in Ha; rewrite has_char_String in Ha.
    apply orb_true_iff in Ha as [Ha|Ha]; [|exact (Hc a Ha)].
    apply Ascii.eqb_eq in Ha; subst a; exact Hd.
Qed.

Lemma all_ok_Forall2 {A B} (f : A -> option B) l rs :
  all_ok (map f l) = Some rs -> Forall2 (fun x y => f x = Some y) l rs.
Proof.
  revert rs; induction l as [|x l IH]; intros rs H; simpl in H.
  - injection H as <-; constructor.
  - destruct (f x) as [y|] eqn:Hx; [|discriminate].
    destruct (all_ok (map f l)) as [ys|] eqn:Hl; simpl in H; [|discriminate].
    injection H as <-; constructor; [exact Hx | apply IH; reflexivity].
Qed.

Lemma all_ok_Forall2_inv {A B} (f : A -> option B) l rs :
  Forall2 (fun x y => f x = Some y) l rs -> all_ok (map f l) = Some rs.
Proof.
  induction 1 as [|x y l rs Hx _ IH]; [reflexivity|]; simpl; rewrite Hx, IH; reflexivity.
Qed.

Lemma Forall2_same {A} (f : A -> option A) l :
  Forall (fun x => f x = Some x) l -> Forall2 (fun x y => f x = Some y) l l.
Proof. induction 1; constructor; assumption. Qed.

Lemma Forall2_length' {A B} (R : A -> B -> Prop) l1 l2 : Forall2 R l1 l2 -> length l1 = length l2.
Proof. induction 1; simpl; congruence. Qed.

Lemma sub_namespaces_count d acc s :
  is_word_char d = false -> d <> ":"%char -> Py.count_char d acc = 0 ->
  Py.count_char d (sub_namespaces acc s) = Py.count_char d s.
Proof.
  intros Hw Hc; revert acc; induction s as [|a s IH]; intros acc Hacc; [exact Hacc|].
  cbn [sub_namespaces Py.count_char].
  destruct (is_word_char a) eqn:Ha.
  - rewrite IH; [|rewrite count_append, Hacc; cbn; destruct (Ascii.eqb_spec a d); [subst; congruence | reflexivity]].
    destruct (Ascii.eqb_spec a d); [subst; congruence | reflexivity].
  - destruct (Ascii.eqb a ":" && negb (String.eqb acc "")) eqn:Hcol.
    + apply andb_true_iff in Hcol as [Hcol _]; apply Ascii.eqb_eq in Hcol; subst a.
      rewrite IH by reflexivity; destruct (Ascii.eqb_spec ":" d); [congruence | reflexivity].
    + rewrite count_append, Hacc; cbn [Py.count_char]; rewrite IH by reflexivity; reflexivity.
Qed.

Lemma remove_namespace_count d name r :
  is_word_char d = false -> d <> ":"%char -> d <> "."%char ->
  remove_namespace name = Some r -> Py.count_char d r = Py.count_char d name.
Proof.
  intros Hw Hc Hd; unfold remove_namespace.
  destruct (Py.has_char "." name) eqn:Hdot.
  - unfold unpack2; destruct (Py.split "." name) as [|o [|c [|x l]]] eqn:Hs; try discriminate.
    intros [= <-]; rewrite (split_two_eq _ _ _ _ Hs), count_append.
    cbn [Py.count_char]; destruct (Ascii.eqb_spec "." d) as [E|_]; [congruence|].
    destruct (String.eqb_spec c "") as [Hce|_].
    + subst c; rewrite sub_namespaces_count by (assumption || reflexivity); cbn; lia.
    + rewrite count_append, sub_namespaces_count by (assumption || reflexivity).
      cbn [Py.count_char]; destruct (Ascii.eqb_spec "." d) as [E|_]; [congruence | lia].
  - intros [= <-]; rewrite sub_namespaces_count by (assumption || reflexivity); reflexivity.
Qed.

End NameFacts.

(** [strip_namespace] raises exactly when the node holds two dots or
    more: [node.split(".")] then has more than two parts to unpack. *)
Theorem strip_namespace_raises node :
  strip_namespace node = None <-> 2 <= Py.count_char "." node.
Proof.
  pose proof (FormatFacts.split_length "." node) as Hl; revert Hl.
  unfold strip_namespace; destruct (Py.has_char "." node) eqn:Hd.
  - apply CharFacts.has_char_count in Hd.
    unfold unpack2; destruct (Py.split "." node) as [|o [|c [|x l]]]; cbn [length];
      intros Hl.
    + discriminate.
    + lia.
    + destruct (String.eqb c ""); split; intros H; (discriminate || lia).
    + split; [lia | reflexivity].
  - intros _; rewrite (FormatFacts.count_has_char _ _ Hd); split; [discriminate | lia].
Qed.

(** [strip_namespace] is idempotent: its result has no namespace left
    and at most one dot, so stripping it again gives it back. *)
Theorem strip_namespace_idempotent node r :
  strip_namespace node = Some r -> strip_namespace r = Some r.
Proof. exact (NameFacts.strip_idem node r). Qed.

(** [shorten_name] is idempotent and keeps the depth of the DAG path: the
    shortened name has as many ['|'] as the node. *)
Theorem shorten_name_idempotent node r :
  shorten_name node = Some r ->
  shorten_name r = Some r /\ Py.count_char "|" r = Py.count_char "|" node.
Proof.
  unfold shorten_name at 1; destruct (Py.has_char "|" node) eqn:Hb.
  - destruct (all_ok (map strip_namespace (Py.split "|" node))) as [rs|] eqn:Hrs;
      cbn [option_map]; intros H; [injection H as <- | discriminate].
    apply NameFacts.all_ok_Forall2 in Hrs.
    assert (Hpno : Forall (fun w => Py.has_char "|" w = false) (Py.split "|" node))
      by (apply Forall_forall; intros w Hw; exact (CharFacts.split_elem_no_sep _ _ _ Hw)).
    assert (Hrno : Forall (fun w => Py.has_char "|" w = false) rs).
    { revert Hpno; clear -Hrs; induction Hrs as [|p q ps qs Hpq _ IH]; intros Hpno;
        constructor; inversion Hpno as [|p' ps' Hp Hps]; subst.
      - destruct (Py.has_char "|" q) eqn:E; [|reflexivity].
        rewrite (NameFacts.strip_chars _ _ Hpq _ E) in Hp; exact Hp.
      - exact (IH Hps). }
    pose proof (NameFacts.Forall2_length' _ _ _ Hrs) as Hlen.
    pose proof (FormatFacts.split_length "|" node) as Hsl.
    pose proof (proj1 (CharFacts.has_char_count _ _) Hb) as Hcn.
    assert (Hcnt : Py.count_char "|" (String.concat "|" rs) = Py.count_char "|" node)
      by (rewrite (CharFacts.count_concat _ _ Hrno); lia).
    split; [|exact Hcnt].
    unfold shorten_name.
    assert (Hbr : Py.has_char "|" (String.concat "|" rs) = true)
      by (apply CharFacts.has_char_count; lia).
    rewrite Hbr, CharFacts.split_concat by (assumption || (destruct rs; cbn in *; [lia | discriminate])).
    rewrite (NameFacts.all_ok_Forall2_inv strip_namespace rs rs); [reflexivity|].
    apply NameFacts.Forall2_same.
    clear -Hrs; induction Hrs; constructor;
      [exact (NameFacts.strip_idem _ _ H) | assumption].
  - intros H.
    assert (Hr : Py.has_char "|" r = false)
      by (destruct (Py.has_char "|" r) eqn:E; [rewrite (NameFacts.strip_chars _ _ H _ E) in Hb|]; auto).
    unfold shorten_name; rewrite Hr.
    split; [exact (NameFacts.strip_idem _ _ H)|].
    rewrite !FormatFacts.count_has_char by assumption; reflexivity.
Qed.

(** [remove_namespaces] keeps the depth of every name: each result has as
    many ['|'] as the name it comes from. *)
Theorem remove_namespaces_keep_depth names rs :
  remove_namespaces names = Some rs ->
  Forall2 (fun n r => Py.count_char "|" r = Py.count_char "|" n) names rs.
Proof.
  unfold remove_namespaces; intros H; apply NameFacts.all_ok_Forall2 in H.
  induction H; constructor; [|assumption].
  apply NameFacts.remove_namespace_count; [reflexivity | discriminate | discriminate | assumption].
Qed.

Lemma strip_namespace_idempotent_witness :
  strip_namespace "ns:a.f[0:3]" = Some "a.f[0:3]" /\ strip_namespace "a.f[0:3]" = Some "a.f[0:3]".
Proof. split; [reflexivity | apply (strip_namespace_idempotent "ns:a.f[0:3]"); reflexivity]. Defined.

Lemma shorten_name_idempotent_witness :
  shorten_name "|ns:a|ns:b.f[1]" = Some "|a|b.f[1]" /\
  (shorten_name "|a|b.f[1]" = Some "|a|b.f[1]" /\
   Py.count_char "|" "|a|b.f[1]" = Py.count_char "|" "|ns:a|ns:b.f[1]").
Proof. split; [reflexivity | apply (shorten_name_idempotent "|ns:a|ns:b.f[1]"); reflexivity]. Defined.

Lemma remove_namespaces_keep_depth_witness :
  remove_namespaces ["|ns:a|b.f[0]"] = Some ["|a|b.f[0]"] /\
  Forall2 (fun n r => Py.count_char "|" r = Py.count_char "|" n) ["|ns:a|b.f[0]"] ["|a|b.f[0]"].
Proof. split; [reflexivity | apply remove_namespaces_keep_depth; reflexivity]. Defined.

(* ------------------------------------------------------------------ *)
(** ** Capture of the members of a shadingEngine *)

Module CaptureFacts.
Import StrFacts FormatFacts CharFacts NameFacts.

Lemma count_split_elem d c s w :
  In w (Py.split c s) -> Py.count_char d w <= Py.count_char d s.
Proof.
  revert w; induction s as [|b s IH]; intros w Hw.
  - simpl in Hw; destruct Hw as [<-|[]]; simpl; lia.
  - destruct (split_cons c s) as [w0 [ws Hs]].
    cbn [Py.split] in Hw; rewrite Hs in Hw, IH; cbn [Py.count_char].
    destruct (Ascii.eqb b c).
    + destruct Hw as [<-|Hw]; [simpl; lia|].
      specialize (IH w Hw); destruct (Ascii.eqb b d); lia.
    + destruct Hw as [<-|Hw].
      * specialize (IH w0 (or_introl eq_refl)); cbn [Py.count_char].
        destruct (Ascii.eqb b d); lia.
      * specialize (IH w (or_intror Hw)); destruct (Ascii.eqb b d); lia.
Qed.

Lemma count_rstrip d c s : Py.count_char d (Py.rstrip c s) <= Py.count_char d s.
Proof.
  induction s as [|b s IH]; [simpl; lia|].
  cbn [Py.rstrip]; destruct (String.eqb (Py.rstrip c s) "" && Ascii.eqb b c);
    cbn [Py.count_char]; destruct (Ascii.eqb b d); lia.
Qed.

Lemma count_rpartition d c s : Py.count_char d (Py.rpartition_last c s) <= Py.count_char d s.
Proof.
  unfold Py.rpartition_last; destruct (split_cons c s) as [w [ws Hs]].
  apply (count_split_elem d c s); rewrite Hs; apply last_In; discriminate.
Qed.

Lemma relative_path_dots a root p :
  Py.count_char "." a <= Py.count_char "." root ->
  exists q, relative_path (Some a) root p = Some q /\
            Py.count_char "." q <= Py.count_char "." p.
Proof.
  intros Ha; unfold relative_path, Py.startswith.
  destruct (String.prefix root p) eqn:Hp; [|exists p; split; [reflexivity | lia]].
  destruct (prefix_split _ _ Hp) as [t ->].
  eexists; split; [reflexivity|].
  rewrite replace1_prefix, !count_append.
  pose proof (count_lstrip "|" "." t).
  assert (Py.count_char "." "|" = 0) by reflexivity; lia.
Qed.

Lemma get_relative_paths_dots paths root :
  Py.has_char "|" root = true ->
  Forall (fun p => Py.count_char "." p <= 1) paths ->
  exists qs, get_relative_paths paths root = Some qs /\
             Forall (fun q => Py.count_char "." q <= 1) qs.
Proof.
  intros Hr Hp; unfold get_relative_paths; cbv zeta; rewrite Hr.
  set (a := Py.rpartition_last "|" (Py.rstrip "|" root)).
  assert (Ha : Py.count_char "." a <= Py.count_char "." root)
    by (pose proof (count_rpartition "." "|" (Py.rstrip "|" root));
        pose proof (count_rstrip "." "|" root); unfold a; lia).
  induction Hp as [|p ps Hp1 _ IH]; [exists []; split; [reflexivity | constructor]|].
  destruct (relative_path_dots a root p Ha) as [q [Hq Hc]].
  destruct IH as [qs [Hqs Hall]].
  exists (q :: qs); split.
  - cbn [map all_ok]; rewrite Hq, Hqs; reflexivity.
  - constructor; [lia | exact Hall].
Qed.

Lemma remove_namespace_dots name :
  Py.count_char "." name <= 1 ->
  exists r, remove_namespace name = Some r /\ Py.count_char "." r <= 1.
Proof.
  intros H; unfold remove_namespace.
  destruct (Py.has_char "." name) eqn:Hd.
  - pose proof (split_length "." name) as Hl; revert Hl; unfold unpack2.
    pose proof (proj1 (has_char_count _ _) Hd) as Hc.
    destruct (Py.split "." name) as [|o [|c [|x l]]] eqn:Hs; cbn [length]; intros Hl;
      try lia.
    destruct (no_dot_split name o c Hs) as [Ho [Hcc _]].
    exists (if String.eqb c "" then sub_namespaces "" o else sub_namespaces "" o ++ "." ++ c).
    split; [reflexivity|].
    assert (Hso : Py.count_char "." (sub_namespaces "" o) = 0)
      by (rewrite sub_namespaces_count by (reflexivity || discriminate);
          exact (count_has_char _ _ Ho)).
    destruct (String.eqb c ""); [lia|].
    rewrite count_append, Hso; change ("." ++ c) with (String "." c); cbn [Py.count_char].
    rewrite Ascii.eqb_refl, (count_has_char _ _ Hcc); lia.
  - exists (sub_namespaces "" name); split; [reflexivity|].
    rewrite sub_namespaces_count by (reflexivity || discriminate); exact H.
Qed.

Lemma remove_namespaces_dots names :
  Forall (fun p => Py.count_char "." p <= 1) names ->
  exists rs, remove_namespaces names = Some rs /\
             Forall (fun r => Py.count_char "." r <= 1) rs.
Proof.
  unfold remove_namespaces; induction 1 as [|n ns Hn _ IH];
    [exists []; split; [reflexivity | constructor]|].
  destruct (remove_namespace_dots n Hn) as [r [Hr Hrd]].
  destruct IH as [rs [Hrs Hall]].
  exists (r :: rs); split; [cbn [map all_ok]; rewrite Hr, Hrs; reflexivity | constructor; assumption].
Qed.

Lemma get_members_dots leaf raw ms :
  (forall o x, In x (leaf o) -> Py.has_char "." x = false) ->
  get_members leaf raw = Some ms -> Forall (fun m => Py.count_char "." m <= 1) ms.
Proof.
  intros Hleaf H; unfold get_members in H; apply all_ok_Forall2 in H.
  induction H as [|m r ms rs Hm _ IH]; constructor; [|exact IH].
  unfold get_member in Hm; destruct (Py.has_char "." m) eqn:Hd.
  - unfold unpack2 in Hm; destruct (Py.split "." m) as [|o [|c [|x l]]] eqn:Hs;
      try discriminate.
    destruct (leaf o) as [|o' rest] eqn:Hl; [discriminate|]; injection Hm as <-.
    destruct (no_dot_split m o c Hs) as [_ [Hc _]].
    assert (Ho' : Py.has_char "." o' = false)
      by (apply (Hleaf o); rewrite Hl; left; reflexivity).
    rewrite count_append; change ("." ++ c) with (String "." c); cbn [Py.count_char].
    rewrite Ascii.eqb_refl, (count_has_char _ _ Ho'), (count_has_char _ _ Hc); lia.
  - injection Hm as <-; rewrite (count_has_char _ _ Hd); lia.
Qed.

Lemma all_ok_None {A} (l : list (option A)) : all_ok l = None <-> In None l.
Proof.
  induction l as [|[x|] l IH]; cbn [all_ok In].
  - split; [discriminate | intros []].
  - destruct (all_ok l); cbn [option_map]; split.
    + discriminate.
    + intros [H|H]; [discriminate | apply IH in H; discriminate].
    + intros _; right; apply IH; reflexivity.
    + reflexivity.
  - split; [left; reflexivity | reflexivity].
Qed.

Lemma find_member_pattern_None m :
  find_member_pattern m = None <-> 2 <= Py.count_char "." m.
Proof.
  pose proof (split_length "." m) as Hl; unfold find_member_pattern; cbv zeta.
  destruct (Nat.ltb_spec 2 (length (Py.split "." m))); split; intros H';
    (reflexivity || discriminate || lia).
Qed.

End CaptureFacts.

(** With [root] a DAG path (it holds a ['|']) and [ls -l] giving dot-free
    node paths, the capture of the members read by [get_members] never
    raises: every token keeps at most one dot through the hierarchy
    filter, the relative paths and the namespace removal. *)
Theorem collect_members_never_raises leaf raw ms hierarchy root :
  (forall o x, In x (leaf o) -> Py.has_char "." x = false) ->
  get_members leaf raw = Some ms ->
  Py.has_char "|" root = true ->
  exists res, collect_members hierarchy root ms = Some res.
Proof.
  intros Hleaf Hg Hr.
  pose proof (CaptureFacts.get_members_dots _ _ _ Hleaf Hg) as Hd.
  unfold collect_members.
  assert (Hf : Forall (fun m => Py.count_char "." m <= 1)
                      (filter_members_in_hierarchy ms hierarchy)).
  { apply Forall_forall; intros x Hx; unfold filter_members_in_hierarchy in Hx.
    apply filter_In in Hx as [Hx _]; exact (proj1 (Forall_forall _ _) Hd x Hx). }
  destruct (CaptureFacts.get_relative_paths_dots _ root Hr Hf) as [qs [Hq Hqd]].
  rewrite Hq.
  destruct (CaptureFacts.remove_namespaces_dots qs Hqd) as [rs [Hrs Hrd]]; rewrite Hrs.
  destruct (FormatFacts.format_members_spec rs) as [res [Hres _]]; [|exists res; exact Hres].
  apply forallb_forall; intros x Hx; apply Nat.leb_le.
  exact (proj1 (Forall_forall _ _) Hrd x Hx).
Qed.

(** With the root ["|"], [get_relative_paths] gives every path back
    unchanged, as long as no path starts with ["||"]. *)
Theorem get_relative_paths_bar_root paths :
  Forall (fun p => String.prefix "||" p = false) paths ->
  get_relative_paths paths "|" = Some paths.
Proof.
  intros H; unfold get_relative_paths; cbv zeta.
  change (if Py.has_char "|" "|" then Some (Py.rpartition_last "|" (Py.rstrip "|" "|"))
          else None) with (Some "").
  induction H as [|p ps Hp _ IH]; [reflexivity|].
  assert (Hrel : relative_path (Some "") "|" p = Some p).
  { unfold relative_path, Py.startswith.
    destruct (String.prefix "|" p) eqn:Hpre; [|reflexivity].
    destruct (CharFacts.prefix_split _ _ Hpre) as [t ->].
    rewrite StrFacts.replace1_prefix.
    destruct t as [|b t]; [reflexivity|]; cbn [Py.lstrip].
    destruct (Ascii.eqb_spec b "|") as [->|_]; [|reflexivity].
    change ("|" ++ String "|" t) with ("||" ++ t) in Hp.
    rewrite StrFacts.prefix_append in Hp; discriminate Hp. }
  cbn [map all_ok]; rewrite Hrel, IH; reflexivity.
Qed.

(** [find_members] raises exactly when one of the members holds two dots
    or more, which [parts = member.split(".")] cannot match. *)
Theorem find_members_raises M members :
  find_members M members = None <-> exists m, In m members /\ 2 <= Py.count_char "." m.
Proof.
  unfold find_members.
  transitivity (In None (map (fun m => option_map (ls_long M) (find_member_pattern m)) members)).
  - rewrite <- CaptureFacts.all_ok_None.
    destruct (all_ok _); cbn [option_map]; split; congruence.
  - rewrite in_map_iff; split.
    + intros [m [Hm Hin]]; exists m; split; [exact Hin|].
      apply CaptureFacts.find_member_pattern_None.
      destruct (find_member_pattern m); [discriminate | reflexivity].
    + intros [m [Hin Hm]]; exists m; split; [|exact Hin].
      apply CaptureFacts.find_member_pattern_None in Hm; rewrite Hm; reflexivity.
Qed.

Lemma collect_members_never_raises_witness :
  get_members (fun _ => ["|geo|a"]) ["x.f[0:3]"; "|geo|b"] = Some ["|geo|a.f[0:3]"; "|geo|b"] /\
  exists res, collect_members ["|geo|a"; "|geo|b"] "|geo" ["|geo|a.f[0:3]"; "|geo|b"] = Some res.
Proof.
  split; [reflexivity|].
  apply (collect_members_never_raises (fun _ => ["|geo|a"]) ["x.f[0:3]"; "|geo|b"]).
  - intros o x [<-|[]]; reflexivity.
  - reflexivity.
  - reflexivity.
Defined.

Lemma get_relative_paths_bar_root_witness :
  get_relative_paths ["|geo|a.f[0]"; "b"] "|" = Some ["|geo|a.f[0]"; "b"].
Proof. apply get_relative_paths_bar_root; repeat constructor. Defined.

(* ------------------------------------------------------------------ *)
(** ** The two assignment loops of materials.py *)

Module AssignFacts.
Import DictFacts Reconcile.

Lemma best_keys_NoDup matched acc :
  NoDup (map fst acc) -> NoDup (map fst (fold_left best_step matched acc)).
Proof.
  revert acc; induction matched as [|[p cs] matched IH]; intros acc H; [exact H|].
  cbn [fold_left]; apply IH; unfold best_step.
  destruct (py_max depth cs) as [w|]; [|exact H].
  clear IH; revert acc H; induction cs as [|c cs IHc]; intros acc H; [exact H|].
  cbn [fold_left]; apply IHc; unfold keep_best.
  destruct (String.eqb _ _); [rewrite keys_append; apply NoDup_add_key; exact H | exact H].
Qed.

Lemma In_add_key k k0 ks : In k (add_key k0 ks) -> k = k0 \/ In k ks.
Proof.
  unfold add_key; destruct (existsb (String.eqb k0) ks); [right; exact H|].
  intros H; apply in_app_or in H as [H|[H|[]]]; [right; exact H | left; symmetry; exact H].
Qed.

Section Keys.
Variables (M : maya) (root : string) (mns matns : option string) (strict : bool).

Definition keys_ok (d : list (string * list candidate)) : Prop :=
  forall k, In k (map fst d) -> keep_match root mns k = true.

Lemma keys_ok_add_matches se m matches d :
  (forall x, In x matches -> keep_match root mns x = true) ->
  keys_ok d -> keys_ok (add_matches se m matches d).
Proof.
  unfold add_matches; revert d; induction matches as [|x xs IH]; intros d Hm Hd;
    [exact Hd|].
  cbn [fold_left]; apply IH; [intros y Hy; apply Hm; right; exact Hy|].
  intros k Hk; rewrite keys_append in Hk; apply In_add_key in Hk as [->|Hk];
    [apply Hm; left; reflexivity | exact (Hd k Hk)].
Qed.

Lemma keys_ok_add_member se d m :
  keys_ok d -> keys_ok (add_member M root mns strict se d m).
Proof.
  intros Hd; unfold add_member; apply keys_ok_add_matches; [|exact Hd].
  intros x Hx; unfold find_matching_paths in Hx; apply filter_In in Hx; apply Hx.
Qed.

Lemma keys_ok_matched assignments :
  keys_ok (matched_member_assignments M assignments root mns matns strict).
Proof.
  unfold matched_member_assignments.
  assert (H0 : keys_ok []) by (intros k []).
  revert H0; generalize (@nil (string * list candidate)).
  induction assignments as [|[se data] rest IH]; intros d Hd; [exact Hd|].
  cbn [fold_left]; apply IH; unfold add_engine.
  destruct (String.eqb se ""); [exact Hd|].
  revert d Hd; induction (members data) as [|m ms IHm]; intros d Hd; [exact Hd|].
  cbn [fold_left]; apply IHm, keys_ok_add_member, Hd.
Qed.

End Keys.

End AssignFacts.

(** The reconciler only assigns under the root: every member it hands to
    [assign_shading_engine] starts with [root.rstrip("|") + "|"], the
    prefix [find_matching_paths] filters on. *)
Theorem apply_material_assignments_under_root M assignments root mns matns strict se asg x :
  In (se, asg) (apply_material_assignments M assignments root mns matns strict) ->
  In x asg -> Py.startswith x (Py.rstrip "|" root ++ "|") = true.
Proof.
  unfold apply_material_assignments; intros Hin Hx.
  apply in_map_iff in Hin as [[se' ms] [Heq Hin]]; injection Heq as <- <-.
  set (matched := matched_member_assignments M assignments root mns matns strict) in *.
  assert (Hgl : Dict.get_list se' (best_shading_assignments matched) = ms).
  { assert (Hnd : NoDup (map fst (best_shading_assignments matched)))
      by (apply AssignFacts.best_keys_NoDup; constructor).
    unfold Dict.get_list; rewrite (DictFacts.In_get _ _ _ Hnd Hin); reflexivity. }
  unfold assignees in Hx; apply in_flat_map in Hx as [e [He Hx]].
  rewrite <- Hgl in He; apply Reconcile.best_shading_assignments_In in He
    as [p [cs [c [Hpc [_ [_ ->]]]]]].
  assert (Hk : keep_match root mns p = true).
  { apply (AssignFacts.keys_ok_matched M root mns matns strict assignments).
    apply in_map_iff; exists (p, cs); split; [reflexivity | exact Hpc]. }
  unfold keep_match in Hk; apply andb_true_iff in Hk as [_ Hk].
  unfold Py.startswith in *; cbn [m_path m_components] in Hx.
  destruct (m_components (c_member c)) as [|comp comps].
  - destruct Hx as [<-|[]]; exact Hk.
  - apply in_map_iff in Hx as [comp' [<- _]]; apply CharFacts.prefix_app; exact Hk.
Qed.

Lemma apply_material_assignments_under_root_witness :
  In ("sgA", ["|r|geo|a.f[0:4]"; "|r|x|geo|a.f[0:4]"])
     (apply_material_assignments (scene_maya scene_r) snapshot_split "|r" None None false) /\
  Py.startswith "|r|x|geo|a.f[0:4]" (Py.rstrip "|" "|r" ++ "|") = true.
Proof.
  split; [vm_compute; left; reflexivity|].
  apply (apply_material_assignments_under_root (scene_maya scene_r) snapshot_split
           "|r" None None false "sgA" ["|r|geo|a.f[0:4]"; "|r|x|geo|a.f[0:4]"]).
  - vm_compute; left; reflexivity.
  - right; left; reflexivity.
Defined.

(* ------------------------------------------------------------------ *)
(** ** [meta_uuid] attributes *)

Module UuidFacts.
Import DictFacts StrFacts.

Lemma get_set {V} k (v : V) d : Dict.get k (Dict.set k v d) = Some v.
Proof.
  induction d as [|[k' v'] d IH]; cbn [Dict.set Dict.get].
  - rewrite String.eqb_refl; reflexivity.
  - destruct (String.eqb_spec k k') as [<-|Hne]; cbn [Dict.get].
    + rewrite String.eqb_refl; reflexivity.
    + rewrite (proj2 (String.eqb_neq k k') Hne); exact IH.
Qed.

Lemma get_set_other {V} k k' (v : V) d :
  k' <> k -> Dict.get k' (Dict.set k v d) = Dict.get k' d.
Proof.
  intros Hne; induction d as [|[k0 v0] d IH]; cbn [Dict.set Dict.get].
  - rewrite (proj2 (String.eqb_neq k' k) Hne); reflexivity.
  - destruct (String.eqb_spec k k0) as [<-|Hk]; cbn [Dict.get].
    + rewrite (proj2 (String.eqb_neq k' k) Hne); reflexivity.
    + destruct (String.eqb k' k0); [reflexivity | exact IH].
Qed.

Lemma keys_set {V} k (v : V) d : map fst (Dict.set k v d) = add_key k (map fst d).
Proof.
  unfold add_key; induction d as [|[k' vs] d IH]; simpl; [reflexivity|].
  destruct (String.eqb_spec k k'); simpl; [reflexivity|].
  rewrite IH; destruct (existsb (String.eqb k) (map fst d)); reflexivity.
Qed.

Lemma In_set {V} k (v : V) d k' v' :
  NoDup (map fst d) -> In (k', v') (Dict.set k v d) ->
  (k' = k /\ v' = v) \/ (k' <> k /\ In (k', v') d).
Proof.
  induction d as [|[k0 v0] d IH]; cbn [Dict.set map fst]; intros Hnd Hin.
  - destruct Hin as [[= <- <-]|[]]; left; split; reflexivity.
  - inversion Hnd as [|? ? Hnot Hnd']; subst.
    destruct (String.eqb_spec k k0) as [<-|Hk].
    + destruct Hin as [[= <- <-]|Hin]; [left; split; reflexivity|].
      right; split; [|right; exact Hin].
      intros ->; apply Hnot, in_map_iff; exists (k, v'); split; [reflexivity | exact Hin].
    + destruct Hin as [[= <- <-]|Hin];
        [right; split; [intros ->; exact (Hk eq_refl) | left; reflexivity]|].
      destruct (IH Hnd' Hin) as [H|[H1 H2]];
        [left; exact H | right; split; [exact H1 | right; exact H2]].
Qed.

Lemma append_inj_r (s1 s2 t : string) : s1 ++ t = s2 ++ t -> s1 = s2.
Proof.
  revert s2; induction s1 as [|a s1 IH]; intros [|b s2] H; [reflexivity | | |].
  - apply (f_equal String.length) in H; cbn [String.append String.length] in H.
    rewrite length_append in H; lia.
  - apply (f_equal String.length) in H; cbn [String.append String.length] in H.
    rewrite length_append in H; lia.
  - cbn [String.append] in H; injection H as -> H; f_equal; exact (IH s2 H).
Qed.

Lemma assign_uuid_spec gen store n path force u store' n' :
  assign_uuid gen (store, n) path force = (u, (store', n')) ->
  u = get_attr_value (path ++ ".meta_uuid") store' /\
  (forall attr, attr <> path ++ ".meta_uuid" -> Dict.get attr store' = Dict.get attr store) /\
  match Dict.get (path ++ ".meta_uuid") store with
  | Some v =>
      if force
      then u = Some (gen n) /\ Dict.get (path ++ ".meta_uuid") store' = Some (Some (gen n)) /\
           n' = S n
      else u = v /\ store' = store /\ n' = n
  | None =>
      u = Some (gen n) /\ Dict.get (path ++ ".meta_uuid") store' = Some (Some (gen n)) /\
      n' = S n
  end.
Proof.
  unfold assign_uuid; cbv zeta iota.
  destruct (Dict.get (path ++ ".meta_uuid") store) as [v|] eqn:Hg; [destruct force|];
    intros H; injection H as <- <- <-; unfold get_attr_value.
  - rewrite get_set; split; [reflexivity|].
    split; [intros a Ha; exact (get_set_other _ _ _ _ Ha) | split; [|split]; reflexivity].
  - rewrite Hg; split; [reflexivity|].
    split; [reflexivity | split; [reflexivity | split; reflexivity]].
  - rewrite get_set; split; [reflexivity|].
    split; [intros a Ha; exact (get_set_other _ _ _ _ Ha) | split; [|split]; reflexivity].
Qed.

(** What the loop of [collect_material_assignments] keeps true of
    [results] and of the scene's [meta_uuid] attributes. *)
Definition collect_inv (upd : bool) (store0 : list (string * option string))
    (acc : option (list (string * group_data) * uuid_state)) : Prop :=
  match acc with
  | None => True
  | Some (res, (store, _)) =>
      NoDup (map fst res) /\
      (forall se data, In (se, data) res ->
         get_attr_value (se ++ ".meta_uuid") store = meta_uuid data /\
         (meta_uuid data = None ->
            upd = false /\ Dict.get (se ++ ".meta_uuid") store0 = Some None)) /\
      (forall attr, Dict.get attr store = Some None -> Dict.get attr store0 = Some None) /\
      (upd = false -> forall attr v, Dict.get attr store0 = Some v -> Dict.get attr store = Some v)
  end.

Lemma collect_step_inv leaf raw gen hierarchy root upd store0 acc se :
  collect_inv upd store0 acc ->
  collect_inv upd store0 (collect_step leaf raw gen hierarchy root upd acc se).
Proof.
  destruct acc as [[results [st sn]]|]; [|intros; exact I].
  intros [Hnd [Hres [Hnone Hmono]]]; unfold collect_step.
  destruct (get_members leaf (raw se)) as [ms|]; [|exact I].
  destruct (collect_members hierarchy root ms) as [mems|]; [|exact I].
  destruct (assign_uuid gen (st, sn) se upd) as [u [st' sn']] eqn:Ha.
  destruct (assign_uuid_spec _ _ _ _ _ _ _ _ Ha) as [Hget [Hother Hcase]].
  cbn [collect_inv]; split; [|split; [|split]].
  - rewrite keys_set; apply NoDup_add_key; exact Hnd.
  - intros se' data Hin.
    destruct (In_set _ _ _ _ _ Hnd Hin) as [[-> ->]|[Hne Hin']]; cbn [meta_uuid].
    + split; [symmetry; exact Hget|]; intros Hu.
      revert Hcase; destruct (Dict.get (se ++ ".meta_uuid") st) as [v|] eqn:Hg;
        [destruct upd|]; intros Hcase.
      * exfalso; destruct Hcase as [Hc _]; congruence.
      * destruct Hcase as [Hc _]; split; [reflexivity|]; apply Hnone; congruence.
      * exfalso; destruct Hcase as [Hc _]; congruence.
    + destruct (Hres se' data Hin') as [H1 H2]; split; [|exact H2].
      unfold get_attr_value in *; rewrite Hother; [exact H1|].
      intros Heq; apply Hne; exact (append_inj_r _ _ _ Heq).
  - intros attr Hattr.
    destruct (String.eqb_spec attr (se ++ ".meta_uuid")) as [->|Hne].
    + revert Hcase; destruct (Dict.get (se ++ ".meta_uuid") st) as [v|] eqn:Hg;
        [destruct upd|]; intros Hcase.
      * destruct Hcase as [_ [Hs _]]; congruence.
      * destruct Hcase as [_ [-> _]]; apply Hnone; exact Hattr.
      * destruct Hcase as [_ [Hs _]]; congruence.
    + apply Hnone; rewrite <- (Hother attr Hne); exact Hattr.
  - intros Hupd attr v Hv; specialize (Hmono Hupd attr v Hv).
    destruct (String.eqb_spec attr (se ++ ".meta_uuid")) as [->|Hne].
    + subst upd; rewrite Hmono in Hcase; destruct Hcase as [_ [-> _]]; exact Hmono.
    + rewrite Hother by exact Hne; exact Hmono.
Qed.

Lemma collect_fold_inv leaf raw gen hierarchy root upd store0 ses acc :
  collect_inv upd store0 acc ->
  collect_inv upd store0 (fold_left (collect_step leaf raw gen hierarchy root upd) ses acc).
Proof.
  revert acc; induction ses as [|se ses IH]; intros acc H; [exact H|].
  cbn [fold_left]; apply IH, collect_step_inv, H.
Qed.

End UuidFacts.

(** [assign_uuid] returns the attribute it reads back after its writes;
    it writes no other attribute; when the attribute is missing or [force]
    is set it writes a fresh uuid and returns it; otherwise it leaves the
    scene as it is and returns the stored value, [None] for an attribute
    that exists but was never set. *)
Theorem assign_uuid_reads_back gen store n path force u store' n' :
  assign_uuid gen (store, n) path force = (u, (store', n')) ->
  u = get_attr_value (path ++ ".meta_uuid") store' /\
  (forall attr, attr <> path ++ ".meta_uuid" -> Dict.get attr store' = Dict.get attr store) /\
  match Dict.get (path ++ ".meta_uuid") store with
  | Some v =>
      if force
      then u = Some (gen n) /\ Dict.get (path ++ ".meta_uuid") store' = Some (Some (gen n)) /\
           n' = S n
      else u = v /\ store' = store /\ n' = n
  | None =>
      u = Some (gen n) /\ Dict.get (path ++ ".meta_uuid") store' = Some (Some (gen n)) /\
      n' = S n
  end.
Proof. exact (UuidFacts.assign_uuid_spec gen store n path force u store' n'). Qed.

(** [collect_material_assignments] gives one entry per shadingEngine; the
    [meta_uuid] of each entry is what [get_uuid] reads on the shadingEngine
    afterwards, and it is [None] only when [update_uuids] is off and the
    shadingEngine had a [meta_uuid] attribute that was never set; without
    [update_uuids] no existing attribute changes. *)
Theorem collect_material_assignments_uuids M leaf raw gen hierarchy ses root upd
    store0 n0 res store n :
  collect_material_assignments leaf raw gen hierarchy ses root upd (store0, n0) =
    Some (res, (store, n)) ->
  NoDup (map fst res) /\
  (forall se data, In (se, data) res ->
     get_uuid (with_attrs M store) se = meta_uuid data /\
     (meta_uuid data = None ->
        upd = false /\ Dict.get (se ++ ".meta_uuid") store0 = Some None)) /\
  (upd = false -> forall attr v, Dict.get attr store0 = Some v -> Dict.get attr store = Some v).
Proof.
  unfold collect_material_assignments; intros H.
  assert (Hinv : UuidFacts.collect_inv upd store0 (Some (res, (store, n)))).
  { rewrite <- H; apply UuidFacts.collect_fold_inv.
    split; [constructor|].
    split; [intros ? ? []|].
    split; [intros ? Hv; exact Hv | intros _ ? ? Hv; exact Hv]. }
  destruct Hinv as [Hnd [Hres [_ Hmono]]].
  split; [exact Hnd|]; split; [exact Hres | exact Hmono].
Qed.

Lemma assign_uuid_reads_back_witness :
  assign_uuid (fun _ => "u") ([("sg.meta_uuid", @None string)], 0) "sg" false =
    (None, ([("sg.meta_uuid", @None string)], 0)) /\
  (None = get_attr_value ("sg" ++ ".meta_uuid") [("sg.meta_uuid", @None string)] /\
   (forall attr, attr <> "sg" ++ ".meta_uuid" ->
      Dict.get attr [("sg.meta_uuid", @None string)] = Dict.get attr [("sg.meta_uuid", @None string)]) /\
   match Dict.get ("sg" ++ ".meta_uuid") [("sg.meta_uuid", @None string)] with
   | Some v =>
       if false
       then None = Some ((fun _ => "u") 0) /\
            Dict.get ("sg" ++ ".meta_uuid") [("sg.meta_uuid", @None string)] =
              Some (Some ((fun _ => "u") 0)) /\ 0 = S 0
       else None = v /\ [("sg.meta_uuid", @None string)] = [("sg.meta_uuid", @None string)] /\ 0 = 0
   | None =>
       None = Some ((fun _ => "u") 0) /\
       Dict.get ("sg" ++ ".meta_uuid") [("sg.meta_uuid", @None string)] =
         Some (Some ((fun _ => "u") 0)) /\ 0 = S 0
   end).
Proof.
  split; [reflexivity|].
  apply (assign_uuid_reads_back (fun _ => "u") [("sg.meta_uuid", @None string)] 0 "sg" false
           None [("sg.meta_uuid", @None string)] 0).
  reflexivity.
Defined.

Lemma collect_material_assignments_uuids_witness :
  exists res store n,
    collect_material_assignments (fun o => [o]) (fun _ => ["|geo|a"; "|geo|b.f[2]"])
      (fun _ => "u") ["|geo|a"; "|geo|b"] ["sg1"; "sg2"] "|geo" false
      ([("sg1.meta_uuid", @None string)], 0) = Some (res, (store, n)) /\
    NoDup (map fst res) /\
    (forall se data, In (se, data) res ->
       get_uuid (with_attrs (scene_maya scene_r) store) se = meta_uuid data /\
       (meta_uuid data = None ->
          false = false /\ Dict.get (se ++ ".meta_uuid") [("sg1.meta_uuid", @None string)] = Some None)) /\
    (false = false -> forall attr v,
       Dict.get attr [("sg1.meta_uuid", @None string)] = Some v -> Dict.get attr store = Some v).
Proof.
  exists [("sg1", mkGroupData None [mkMember "geo|a" []; mkMember "geo|b" ["f[2]"]]);
          ("sg2", mkGroupData (Some "u") [mkMember "geo|a" []; mkMember "geo|b" ["f[2]"]])],
         [("sg1.meta_uuid", @None string); ("sg2.meta_uuid", Some "u")], 1.
  split; [vm_compute; reflexivity|].
  apply (collect_material_assignments_uuids (scene_maya scene_r) (fun o => [o])
           (fun _ => ["|geo|a"; "|geo|b.f[2]"]) (fun _ => "u") ["|geo|a"; "|geo|b"]
           ["sg1"; "sg2"] "|geo" false [("sg1.meta_uuid", @None string)] 0 _ _ 1).
  vm_compute; reflexivity.
Defined.

(* ------------------------------------------------------------------ *)
(** ** Attribute calls (utils.py and shadeset_lite.py) *)

Module AttrFacts.

(** Every type whose value is spread into the arguments also gets a
    [type] keyword. *)
Lemma unpackable_typeable t :
  py_in t unpackable_types = true -> py_in t typeable_attrs = true.
Proof.
  unfold py_in; intros H; apply existsb_exists in H as [x [Hin Heq]].
  apply existsb_exists; exists x; split; [|exact Heq].
  cbn [unpackable_types typeable_attrs In] in *; tauto.
Qed.

End AttrFacts.

(** [add_attr_kwargs] puts the type under exactly one of the flags [dt] and
    [at]: [dt] for a non-compound attribute whose type is in [dt_attrs],
    [at] otherwise; it adds [enumName] exactly when [options] is a
    non-empty list, with all the options joined by [':']. *)
Theorem add_attr_kwargs_type_flag a :
  Dict.get "dt" (add_attr_kwargs a) =
    (if negb (ad_compound a) && py_in (ad_type a) dt_attrs then Some (PStr (ad_type a))
     else None) /\
  Dict.get "at" (add_attr_kwargs a) =
    (if negb (ad_compound a) && py_in (ad_type a) dt_attrs then None
     else Some (PStr (ad_type a))) /\
  Dict.get "enumName" (add_attr_kwargs a) =
    match ad_options a with
    | Some (o :: os) => Some (PStr (String.concat ":" (o :: os)))
    | _ => None
    end.
Proof.
  unfold add_attr_kwargs; cbv zeta.
  destruct (ad_compound a), (py_in (ad_type a) dt_attrs), (ad_options a) as [[|o os]|];
    cbn [negb andb]; (split; [reflexivity | split; reflexivity]).
Qed.

(** The [type_flag] of [add_attr_kwargs] (utils.py) and [get_type_flag]
    (shadeset_lite.py) agree: the lite version answers [dataType] exactly
    when [add_attr_kwargs] uses the [dt] flag. *)
Theorem get_type_flag_agrees a :
  get_type_flag (ad_type a) (ad_compound a) = "dataType" <->
  Dict.get "dt" (add_attr_kwargs a) <> None.
Proof.
  unfold get_type_flag, add_attr_kwargs, dt_attrs; cbv zeta.
  destruct (ad_compound a);
    [| match goal with |- context [py_in (ad_type a) ?l] => destruct (py_in (ad_type a) l) end];
    destruct (ad_options a) as [[|o os]|];
    split; intros H; solve [ discriminate | exfalso; apply H; reflexivity | reflexivity ].
Qed.

(** With a schema of the attribute's type, [set_attr] of shadeset_lite.py
    makes the same [cmds.setAttr] call as [set_attr_data] of utils.py. *)
Theorem set_attr_call_agrees node a sc :
  sc_type sc = ad_type a ->
  set_attr_call node (ad_name a) (ad_value a) (Some sc) = set_attr_data_call node a.
Proof.
  intros Ht; unfold set_attr_call, set_attr_data_call, unpackable, typeable; cbv zeta.
  rewrite Ht; reflexivity.
Qed.


(** When [set_attr_data] spreads the value into the arguments it always
    passes the [type] keyword too: every unpackable type is typeable. *)
Theorem set_attr_data_spread_typed node a :
  unpackable a = true ->
  set_attr_data_call node a =
    option_map (fun items => (PStr (node ++ "." ++ ad_name a) :: items,
                              [("type", PStr (ad_type a))]))
               (py_iter (ad_value a)).
Proof.
  intros Hu; unfold set_attr_data_call; cbv zeta.
  rewrite Hu; unfold typeable; rewrite (AttrFacts.unpackable_typeable _ Hu).
  destruct (py_iter (ad_value a)); reflexivity.
Qed.

Lemma set_attr_call_agrees_witness :
  sc_type (mkSchema "float3" "color" "c" "Color" [] None true true) = "float3" /\
  set_attr_call "node" "color" (PList [PInt 1%Z; PInt 0%Z; PInt 0%Z])
    (Some (mkSchema "float3" "color" "c" "Color" [] None true true)) =
  set_attr_data_call "node"
    (mkAttrData "color" (PList [PInt 1%Z; PInt 0%Z; PInt 0%Z]) "float3" "c" "Color" false
       None None true).
Proof.
  split; [reflexivity|].
  apply (set_attr_call_agrees "node"
           (mkAttrData "color" (PList [PInt 1%Z; PInt 0%Z; PInt 0%Z]) "float3" "c" "Color"
              false None None true)
           (mkSchema "float3" "color" "c" "Color" [] None true true)).
  reflexivity.
Defined.

Lemma set_attr_data_spread_typed_witness :
  unpackable (mkAttrData "color" (PStr "abc") "float3" "c" "Color" false None None true) = true /\
  set_attr_data_call "node"
    (mkAttrData "color" (PStr "abc") "float3" "c" "Color" false None None true) =
  option_map (fun items => (PStr ("node" ++ "." ++ "color") :: items, [("type", PStr "float3")]))
    (py_iter (PStr "abc")).
Proof.
  split; [reflexivity|].
  apply (set_attr_data_spread_typed "node"
           (mkAttrData "color" (PStr "abc") "float3" "c" "Color" false None None true)).
  reflexivity.
Defined.

(* ------------------------------------------------------------------ *)
(** ** [re.sub(r'[A-Za-z0-9_]+\:', '', name)] leaves no namespace behind *)

Module NsFacts.
Import StrFacts FormatFacts CharFacts NameFacts.

(** No run of word characters followed by [':'] is left in [t];
    [prev_word] tells whether the character before [t] is a word one. *)
Fixpoint no_ns_left (prev_word : bool) (t : string) : bool :=
  match t with
  | EmptyString => true
  | String a t' =>
      if Ascii.eqb a ":" then negb prev_word && no_ns_left false t'
      else no_ns_left (is_word_char a) t'
  end.

Fixpoint all_word (s : string) : bool :=
  match s with
  | EmptyString => true
  | String a s' => is_word_char a && all_word s'
  end.

Lemma all_word_app s t : all_word (s ++ t) = all_word s && all_word t.
Proof. induction s as [|a s IH]; cbn; [reflexivity | rewrite IH, andb_assoc; reflexivity]. Qed.

Lemma word_not_colon a : is_word_char a = true -> Ascii.eqb a ":" = false.
Proof. intros H; destruct (Ascii.eqb_spec a ":") as [->|_]; [discriminate H | reflexivity]. Qed.

Lemma no_ns_left_word pw acc : all_word acc = true -> no_ns_left pw acc = true.
Proof.
  revert pw; induction acc as [|a acc IH]; intros pw H; [reflexivity|].
  cbn [all_word] in H; apply andb_true_iff in H as [Ha H].
  cbn [no_ns_left]; rewrite (word_not_colon _ Ha); exact (IH _ H).
Qed.

Lemma pass_word pw acc t :
  all_word acc = true -> acc <> "" -> no_ns_left pw (acc ++ t) = no_ns_left true t.
Proof.
  revert pw; induction acc as [|a acc IH]; intros pw H Hne; [congruence|].
  cbn [all_word] in H; apply andb_true_iff in H as [Ha H].
  cbn [String.append no_ns_left]; rewrite (word_not_colon _ Ha), Ha.
  destruct acc as [|b acc]; [reflexivity | apply IH; [exact H | discriminate]].
Qed.

Lemma sub_namespaces_clean s acc :
  all_word acc = true -> no_ns_left false (sub_namespaces acc s) = true.
Proof.
  revert acc; induction s as [|a s IH]; intros acc Hacc; cbn [sub_namespaces].
  - exact (no_ns_left_word _ _ Hacc).
  - destruct (is_word_char a) eqn:Ha.
    + apply IH; rewrite all_word_app, Hacc; cbn; rewrite Ha; reflexivity.
    + destruct (Ascii.eqb a ":" && negb (String.eqb acc "")) eqn:Hc; [apply IH; reflexivity|].
      destruct (String.eqb_spec acc "") as [->|Hne].
      * cbn [String.append no_ns_left]; rewrite Ha.
        destruct (Ascii.eqb a ":"); cbn [negb andb]; apply IH; reflexivity.
      * rewrite (pass_word _ _ _ Hacc Hne); cbn [no_ns_left].
        rewrite andb_true_r in Hc; rewrite Hc, Ha; apply IH; reflexivity.
Qed.

Lemma sub_namespaces_clean_id t acc :
  all_word acc = true -> no_ns_left (negb (String.eqb acc "")) t = true ->
  sub_namespaces acc t = acc ++ t.
Proof.
  revert acc; induction t as [|a t IH]; intros acc Hacc H; cbn [sub_namespaces].
  - symmetry; apply FaceFacts.append_nil_r.
  - cbn [no_ns_left] in H; destruct (is_word_char a) eqn:Ha.
    + rewrite (word_not_colon _ Ha) in H.
      rewrite IH; [rewrite append_assoc; reflexivity | |].
      * rewrite all_word_app, Hacc; cbn; rewrite Ha; reflexivity.
      * destruct acc; exact H.
    + destruct (Ascii.eqb_spec a ":") as [->|Hna].
      * apply andb_true_iff in H as [H1 H2].
        destruct (String.eqb_spec acc "") as [->|Hne]; [|discriminate H1].
        cbn [andb negb String.eqb]; rewrite IH by reflexivity || exact H2; reflexivity.
      * cbn [andb]; rewrite IH by reflexivity || exact H; reflexivity.
Qed.

Lemma sub_namespaces_idem s :
  sub_namespaces "" (sub_namespaces "" s) = sub_namespaces "" s.
Proof.
  apply (sub_namespaces_clean_id _ ""); [reflexivity|].
  exact (sub_namespaces_clean s "" eq_refl).
Qed.

Lemma sub_namespaces_no_dot s :
  Py.has_char "." s = false -> Py.has_char "." (sub_namespaces "" s) = false.
Proof.
  intros H; destruct (Py.has_char "." (sub_namespaces "" s)) eqn:E; [|reflexivity].
  apply has_char_count in E; rewrite sub_namespaces_count in E by (reflexivity || discriminate).
  rewrite (count_has_char _ _ H) in E; congruence.
Qed.

End NsFacts.

(** [remove_namespace] is idempotent: the namespaces [re.sub] strips from
    the node part leave none behind, and the component is kept as it is. *)
Theorem remove_namespace_idempotent name r :
  remove_namespace name = Some r -> remove_namespace r = Some r.
Proof.
  unfold remove_namespace at 1; destruct (Py.has_char "." name) eqn:Hd.
  - unfold unpack2; destruct (Py.split "." name) as [|o [|c [|x l]]] eqn:Hs;
      try discriminate.
    destruct (NameFacts.no_dot_split name o c Hs) as [Ho [Hc _]].
    pose proof (NsFacts.sub_namespaces_no_dot o Ho) as Hso.
    intros [= <-]; unfold remove_namespace.
    destruct (String.eqb_spec c "") as [Hce|Hne].
    + rewrite Hso, NsFacts.sub_namespaces_idem; reflexivity.
    + change ("." ++ c) with (String "." c).
      rewrite StrFacts.has_char_append, Hso, CharFacts.has_char_String, Ascii.eqb_refl.
      cbn [orb]; unfold unpack2.
      rewrite StrFacts.split_sep, (StrFacts.split_no_char _ _ Hso),
        (StrFacts.split_no_char _ _ Hc).
      cbn [List.app]; rewrite NsFacts.sub_namespaces_idem.
      destruct (String.eqb_spec c ""); [congruence | reflexivity].
  - intros [= <-]; unfold remove_namespace.
    rewrite (NsFacts.sub_namespaces_no_dot _ Hd), NsFacts.sub_namespaces_idem; reflexivity.
Qed.

(** When [root] ends in exactly one ['|'], the [match.startswith(root)]
    filter of shadeset_lite.py is the [root.rstrip("|") + "|"] filter of
    materials.py, and the two [apply_material_assignments] make the same
    calls. *)
Theorem apply_material_assignments_lite_v0 M assignments root mns matns strict :
  Py.rstrip "|" root ++ "|" = root ->
  apply_material_assignments_lite M assignments root mns matns strict =
  apply_material_assignments_v0 M assignments root mns matns strict.
Proof.
  intros Hr.
  assert (Hf : forall path, find_matching_paths_lite M path root mns strict =
                            find_matching_paths M path root mns strict).
  { intros path; unfold find_matching_paths_lite, find_matching_paths, keep_match.
    rewrite Hr; reflexivity. }
  unfold apply_material_assignments_lite, apply_material_assignments_v0.
  apply flat_map_ext; intros [se data]; cbv beta iota zeta.
  destruct (String.eqb se ""); [reflexivity|].
  apply flat_map_ext; intros m; rewrite Hf; reflexivity.
Qed.

Lemma remove_namespace_idempotent_witness :
  remove_namespace "ns:a|ns:b.f[0]" = Some "a|b.f[0]" /\
  remove_namespace "a|b.f[0]" = Some "a|b.f[0]".
Proof. split; [reflexivity | apply (remove_namespace_idempotent "ns:a|ns:b.f[0]"); reflexivity]. Defined.

Lemma apply_material_assignments_lite_v0_witness :
  Py.rstrip "|" "|r|" ++ "|" = "|r|" /\
  apply_material_assignments_lite (scene_maya scene_r) snapshot_split "|r|" None None false =
  apply_material_assignments_v0 (scene_maya scene_r) snapshot_split "|r|" None None false.
Proof. split; [reflexivity | apply apply_material_assignments_lite_v0; reflexivity]. Defined.

(** [get_members] raises exactly when a member holds two dots or more, or
    holds one dot and its node has no leaf shape ([cmds.ls(...)[0]]). *)
Theorem get_members_raises leaf raw :
  get_members leaf raw = None <->
  exists m, In m raw /\
    (2 <= Py.count_char "." m \/
     (Py.count_char "." m = 1 /\ leaf (hd "" (Py.split "." m)) = [])).
Proof.
  assert (Hm : forall m, get_member leaf m = None <->
                 (2 <= Py.count_char "." m \/
                  (Py.count_char "." m = 1 /\ leaf (hd "" (Py.split "." m)) = []))).
  { intros m; pose proof (FormatFacts.split_length "." m) as Hl; revert Hl.
    unfold get_member; destruct (Py.has_char "." m) eqn:Hd.
    - apply CharFacts.has_char_count in Hd; unfold unpack2.
      destruct (Py.split "." m) as [|o [|c [|x l]]]; cbn [length hd]; intros Hl; try lia.
      + destruct (leaf o) as [|o' r]; split.
        * intros _; right; split; [lia | reflexivity].
        * reflexivity.
        * discriminate.
        * intros [H|[_ H]]; [lia | discriminate].
      + split; [intros _; left; lia | reflexivity].
    - intros _; rewrite (FormatFacts.count_has_char _ _ Hd).
      split; [discriminate | intros [H|[H _]]; lia]. }
  unfold get_members; rewrite CaptureFacts.all_ok_None, in_map_iff; split.
  - intros [m [Hn Hin]]; exists m; split; [exact Hin | apply Hm; exact Hn].
  - intros [m [Hin H]]; exists m; split; [apply Hm; exact H | exact Hin].
Qed.
